(** * universi.structure.endpoints: the endpoint instruction model

    A shallow embedding of [src/universi/structure/endpoints.py].  The
    module declares six [@dataclass(slots=True)] classes, one factory with
    four operations, the helper [endpoint] and the union alias
    [AlterEndpointSubInstruction].

    Python objects live in a store and are known by their address, so that
    identity ([is]), attribute assignment and the freshness of a constructed
    object can be stated.  Operations are computations in a small
    state-and-exception monad over that store. *)

From stdpp Require Import base numbers strings list gmap.

Open Scope string_scope.
Open Scope list_scope.

(** ** Values *)

(** Address of a dataclass instance in the store. *)
Abbreviation loc := nat.

(** The Python values the module handles.  The code never inspects an
    attribute value; it only passes references around.  [VObj] stands for
    any other object known by identity alone (a response class, a
    [Depends], a route). *)
#[local] Unset Elimination Schemes.
Inductive value : Type :=
  | VNone
  | VBool (b : bool)
  | VInt (n : Z)
  | VStr (s : string)
  | VList (xs : list value)
  | VSentinel
  | VCallable (f : nat)
  | VObj (o : nat)
  | VRef (l : loc).
#[local] Set Elimination Schemes.

(** Modelled from the spec: [universi._utils.Sentinel], imported at line 12
    and absent from the sources.  The spec describes it as a single
    process-wide singleton compared by identity only, distinct from [None],
    [False] and empty containers. *)
Definition Sentinel : value := VSentinel.

(** [v is Sentinel] *)
Definition is_Sentinel (v : value) : bool :=
  match v with
  | VSentinel => true
  | _ => false
  end.

(** Same object or same content.  Either way Python's [==] holds; the
    comparison is the shortcut [py_eq] starts with. *)
Fixpoint value_eqb (a b : value) {struct a} : bool :=
  match a, b with
  | VNone, VNone => true
  | VBool x, VBool y => Bool.eqb x y
  | VInt x, VInt y => Z.eqb x y
  | VStr x, VStr y => String.eqb x y
  | VList xs, VList ys =>
      (fix go (xs ys : list value) {struct xs} : bool :=
         match xs, ys with
         | [], [] => true
         | x :: xs', y :: ys' => value_eqb x y && go xs' ys'
         | _, _ => false
         end) xs ys
  | VSentinel, VSentinel => true
  | VCallable f, VCallable g => Nat.eqb f g
  | VObj o, VObj p => Nat.eqb o p
  | VRef l, VRef m => Nat.eqb l m
  | _, _ => false
  end.

(** [callable(v)] *)
Definition callable (v : value) : bool :=
  match v with
  | VCallable _ => true
  | _ => false
  end.

(** ** Classes *)

Inductive class_name : Type :=
  | EndpointAttributesPayload
  | EndpointHadInstruction
  | EndpointExistedInstruction
  | EndpointDidntExistInstruction
  | EndpointWasInstruction
  | EndpointInstructionFactory.

Definition class_eqb (c d : class_name) : bool :=
  match c, d with
  | EndpointAttributesPayload, EndpointAttributesPayload
  | EndpointHadInstruction, EndpointHadInstruction
  | EndpointExistedInstruction, EndpointExistedInstruction
  | EndpointDidntExistInstruction, EndpointDidntExistInstruction
  | EndpointWasInstruction, EndpointWasInstruction
  | EndpointInstructionFactory, EndpointInstructionFactory => true
  | _, _ => false
  end.

(** The three fields every instruction and the factory start with. *)
Definition identity_fields : list string :=
  ["endpoint_path"; "endpoint_methods"; "endpoint_func_name"].

(** The declared fields of each class, in declaration order
    (lines 29-51, 56-59, 64-66, 71-73, 78-81, 86-88). *)
Definition dataclass_fields (c : class_name) : list string :=
  match c with
  | EndpointAttributesPayload =>
      ["path"; "response_model"; "status_code"; "tags"; "dependencies";
       "summary"; "description"; "response_description"; "responses";
       "deprecated"; "methods"; "operation_id"; "include_in_schema";
       "response_class"; "name"; "callbacks"; "openapi_extra";
       "generate_unique_id_function"]
  | EndpointHadInstruction => identity_fields ++ ["attributes"]
  | EndpointExistedInstruction => identity_fields
  | EndpointDidntExistInstruction => identity_fields
  | EndpointWasInstruction => identity_fields ++ ["get_old_endpoint"]
  | EndpointInstructionFactory => identity_fields
  end.

(** The options of the [@dataclass] decorator. *)
Record dataclass_params : Type := DataclassParams {
  dc_slots : bool;
  dc_frozen : bool;
  dc_eq : bool
}.

(** Every class of the module is declared [@dataclass(slots=True)]; the
    other options keep their defaults ([frozen=False], [eq=True]). *)
Definition params_of (c : class_name) : dataclass_params :=
  {| dc_slots := true; dc_frozen := false; dc_eq := true |}.

(** ** Store *)

Record instance : Type := Instance {
  cls : class_name;
  fields : list (string * value)
}.

(** [heap]: the dataclass instances allocated so far, by address;
    [globals]: the module namespace a handler producer may read;
    [trace]: the callables invoked so far, latest first. *)
Record world : Type := World {
  heap : list instance;
  globals : gmap string value;
  trace : list nat
}.

Definition set_heap (w : world) (h : list instance) : world :=
  {| heap := h; globals := globals w; trace := trace w |}.

Definition empty_world : world :=
  {| heap := []; globals := ∅; trace := [] |}.

(** ** Computations *)

Inductive exn : Type :=
  | TypeError
  | AttributeError
  | NameError.

(** What a step does: it returns, it raises, or it is answered by the
    class of the object (a method, a property, a special attribute such as
    [__class__] or [__eq__]), which this embedding does not describe.  No
    result or exception is claimed for a step of the last kind. *)
Inductive outcome (A : Type) : Type :=
  | Return (a : A)
  | Raise (e : exn)
  | Unmodelled.
Arguments Return {A} a.
Arguments Raise {A} e.
Arguments Unmodelled {A}.

Definition M (A : Type) : Type := world -> outcome A * world.

Definition ret {A} (a : A) : M A := fun w => (Return a, w).

Definition raise {A} (e : exn) : M A := fun w => (Raise e, w).

Definition bind {A B} (m : M A) (k : A -> M B) : M B :=
  fun w =>
    match m w with
    | (Return a, w') => k a w'
    | (Raise e, w') => (Raise e, w')
    | (Unmodelled, w') => (Unmodelled, w')
    end.

Notation "'let*' x ':=' m 'in' k" := (bind m (fun x => k))
  (at level 10, x name, m at level 100, k at level 200).

(** ** Attribute access *)

Fixpoint assoc (name : string) (fs : list (string * value)) : option value :=
  match fs with
  | [] => None
  | (n, v) :: fs' => if String.eqb n name then Some v else assoc name fs'
  end.

Fixpoint assoc_set (name : string) (v : value) (fs : list (string * value))
  : list (string * value) :=
  match fs with
  | [] => []
  | (n, old) :: fs' =>
      if String.eqb n name then (n, v) :: fs' else (n, old) :: assoc_set name v fs'
  end.

Definition mem (name : string) (names : list string) : bool :=
  existsb (String.eqb name) names.

(** The operations the factory class defines (lines 90-163). *)
Definition factory_operations : list string :=
  ["didnt_exist"; "existed"; "had"; "was"].

(** Names that the class of an instance answers rather than one of its
    slots: the special names, which all begin with two underscores
    ([__class__], [__module__], [__eq__], [__slots__], ...), and, on a
    factory, its two properties and two methods. *)
Definition class_level (c : class_name) (name : string) : bool :=
  String.prefix "__" name
  || (mem name factory_operations && class_eqb c EndpointInstructionFactory).

(** [obj.name] on a slotted instance: the slot's value; for a name the
    class answers, whatever the class gives, which is not described here;
    [AttributeError] for every other name, since a slotted instance has no
    [__dict__]. *)
Definition getattr (l : loc) (name : string) : M value :=
  fun w =>
    match heap w !! l with
    | Some o =>
        match assoc name (fields o) with
        | Some v => (Return v, w)
        | None =>
            if class_level (cls o) name then (Unmodelled, w)
            else (Raise AttributeError, w)
        end
    | None => (Raise AttributeError, w)
    end.

(** [obj.name = v].  A frozen dataclass refuses every assignment; a
    slotted one has no [__dict__] and refuses names outside its slots
    (read-only class attributes, properties without a setter and unknown
    names alike).  The one exception is [__class__], whose assignment the
    runtime accepts between classes of the same layout: it is not
    described here. *)
Definition setattr (l : loc) (name : string) (v : value) : M unit :=
  fun w =>
    match heap w !! l with
    | Some o =>
        if dc_frozen (params_of (cls o)) then (Raise AttributeError, w)
        else if mem name (map fst (fields o)) then
          (Return tt,
           set_heap w (<[l := Instance (cls o) (assoc_set name v (fields o))]> (heap w)))
        else if String.eqb name "__class__" then (Unmodelled, w)
        else if dc_slots (params_of (cls o)) then (Raise AttributeError, w)
        else
          (Return tt,
           set_heap w (<[l := Instance (cls o) (fields o ++ [(name, v)])]> (heap w)))
    | None => (Raise AttributeError, w)
    end.

(** ** Construction *)

(** The keywords of a call once the binding of [name] is used. *)
Fixpoint remove_key (name : string) (kwargs : list (string * value))
  : list (string * value) :=
  match kwargs with
  | [] => []
  | (n, v) :: rest =>
      if String.eqb n name then rest else (n, v) :: remove_key name rest
  end.

(** Binding of a call's arguments to the parameters of a generated
    [__init__]: positional arguments fill the leading parameters, keywords
    the rest, each keyword being used once; a missing or unknown argument,
    a parameter given twice (by position and by keyword) and a keyword
    given twice are each a [TypeError]. *)
Fixpoint bind_args (params : list string) (args : list value)
    (kwargs : list (string * value)) : option (list (string * value)) :=
  match params with
  | [] =>
      match args, kwargs with
      | [], [] => Some []
      | _, _ => None
      end
  | p :: ps =>
      match args with
      | a :: args' =>
          if mem p (map fst kwargs) then None
          else option_map (cons (p, a)) (bind_args ps args' kwargs)
      | [] =>
          match assoc p kwargs with
          | Some v =>
              option_map (cons (p, v))
                (bind_args ps [] (remove_key p kwargs))
          | None => None
          end
      end
  end.

(** Allocation of a new object at the next free address. *)
Definition alloc (o : instance) : M loc :=
  fun w => (Return (length (heap w)), set_heap w (heap w ++ [o])).

(** Instantiation of a dataclass [c] with positional and keyword
    arguments. *)
Definition new (c : class_name) (args : list value) (kwargs : list (string * value))
  : M loc :=
  match bind_args (dataclass_fields c) args kwargs with
  | Some fs => alloc (Instance c fs)
  | None => raise TypeError
  end.

(** Keywords of a call that the callee's signature does not declare. *)
Definition unexpected_keywords (allowed : list string) (kwargs : gmap string value)
  : bool :=
  negb (forallb (fun kv => mem (fst kv) allowed) (map_to_list kwargs)).

(** [typing.cast] returns its second argument unchanged. *)
Definition cast {T : Type} (typ : T) (v : loc) : loc := v.

(** [f()]: the call is recorded, then the body of [f] runs in the world
    of the call.  Calling anything but a callable is a [TypeError]. *)
Definition call (code : nat -> M value) (f : value) : M value :=
  match f with
  | VCallable n =>
      fun w => code n {| heap := heap w; globals := globals w; trace := n :: trace w |}
  | _ => raise TypeError
  end.

(** ** The factory (lines 84-163) *)

(** Keyword-only parameters of [had] (lines 109-126). *)
Definition had_keywords : list string :=
  ["path"; "response_model"; "status_code"; "tags"; "dependencies";
   "summary"; "description"; "response_description"; "responses";
   "deprecated"; "methods"; "operation_id"; "include_in_schema";
   "response_class"; "name"; "callbacks"; "openapi_extra";
   "generate_unique_id_function"].

Definition didnt_exist (self : loc) : M loc :=
  let* endpoint_path := getattr self "endpoint_path" in
  let* endpoint_methods := getattr self "endpoint_methods" in
  let* endpoint_func_name := getattr self "endpoint_func_name" in
  new EndpointDidntExistInstruction
    [endpoint_path; endpoint_methods]
    [("endpoint_func_name", endpoint_func_name)].

Definition existed (self : loc) : M loc :=
  let* endpoint_path := getattr self "endpoint_path" in
  let* endpoint_methods := getattr self "endpoint_methods" in
  let* endpoint_func_name := getattr self "endpoint_func_name" in
  new EndpointExistedInstruction
    [endpoint_path; endpoint_methods]
    [("endpoint_func_name", endpoint_func_name)].

Definition had (self : loc) (kwargs : gmap string value) : M loc :=
  if unexpected_keywords had_keywords kwargs then raise TypeError else
  let arg (name : string) := default Sentinel (kwargs !! name) in
  let path := arg "path" in
  let response_model := arg "response_model" in
  let status_code := arg "status_code" in
  let tags := arg "tags" in
  let dependencies := arg "dependencies" in
  let summary := arg "summary" in
  let description := arg "description" in
  let response_description := arg "response_description" in
  let responses := arg "responses" in
  let deprecated := arg "deprecated" in
  let methods := arg "methods" in
  let operation_id := arg "operation_id" in
  let include_in_schema := arg "include_in_schema" in
  let response_class := arg "response_class" in
  let name := arg "name" in
  let callbacks := arg "callbacks" in
  let openapi_extra := arg "openapi_extra" in
  let generate_unique_id_function := arg "generate_unique_id_function" in
  let* endpoint_path := getattr self "endpoint_path" in
  let* endpoint_methods := getattr self "endpoint_methods" in
  let* endpoint_func_name := getattr self "endpoint_func_name" in
  let* attributes :=
    new EndpointAttributesPayload []
      [("path", path);
       ("response_model", response_model);
       ("status_code", status_code);
       ("tags", tags);
       ("dependencies", dependencies);
       ("summary", summary);
       ("description", description);
       ("response_description", response_description);
       ("responses", responses);
       ("deprecated", deprecated);
       ("methods", methods);
       ("operation_id", operation_id);
       ("include_in_schema", include_in_schema);
       ("response_class", response_class);
       ("name", name);
       ("callbacks", callbacks);
       ("openapi_extra", openapi_extra);
       ("generate_unique_id_function", generate_unique_id_function)] in
  new EndpointHadInstruction []
    [("endpoint_path", endpoint_path);
     ("endpoint_methods", endpoint_methods);
     ("endpoint_func_name", endpoint_func_name);
     ("attributes", VRef attributes)].

Definition was (self : loc) (get_old_endpoint : value) : M loc :=
  let* endpoint_path := getattr self "endpoint_path" in
  let* endpoint_methods := getattr self "endpoint_methods" in
  let* endpoint_func_name := getattr self "endpoint_func_name" in
  let* instruction :=
    new EndpointWasInstruction []
      [("endpoint_path", endpoint_path);
       ("endpoint_methods", endpoint_methods);
       ("endpoint_func_name", endpoint_func_name);
       ("get_old_endpoint", get_old_endpoint)] in
  ret (cast "type[staticmethod]" instruction).

(** [endpoint(path, methods, /, *, func_name=None)] (lines 166-167): two
    positional-only parameters and one optional keyword. *)
Definition endpoint (args : list value) (kwargs : gmap string value) : M loc :=
  match args with
  | [path; methods] =>
      if unexpected_keywords ["func_name"] kwargs then raise TypeError else
      let func_name := default VNone (kwargs !! "func_name") in
      new EndpointInstructionFactory [path; methods; func_name] []
  | _ => raise TypeError
  end.

(** Line 170. *)
Definition AlterEndpointSubInstruction : list class_name :=
  [EndpointDidntExistInstruction; EndpointExistedInstruction; EndpointHadInstruction].

(** [isinstance(v, union)] *)
Definition isinstance (w : world) (v : value) (classes : list class_name) : bool :=
  match v with
  | VRef l =>
      match heap w !! l with
      | Some o => existsb (class_eqb (cls o)) classes
      | None => false
      end
  | _ => false
  end.

(** The four operations of a factory, as data. *)
Inductive operation : Type :=
  | OpDidntExist
  | OpExisted
  | OpHad (kwargs : gmap string value)
  | OpWas (get_old_endpoint : value).

Definition perform (op : operation) (self : loc) : M loc :=
  match op with
  | OpDidntExist => didnt_exist self
  | OpExisted => existed self
  | OpHad kwargs => had self kwargs
  | OpWas get_old_endpoint => was self get_old_endpoint
  end.

(** ** Equality of objects *)

Fixpoint all2 {A} (p : A -> A -> bool) (xs ys : list A) : bool :=
  match xs, ys with
  | [], [] => true
  | x :: xs', y :: ys' => p x y && all2 p xs' ys'
  | _, _ => false
  end.

(** [a == b].  [depth] bounds how many containers and instances the
    comparison may enter.  An object equals itself; a [bool] is an [int];
    lists compare element by element; the [__eq__] a dataclass generates
    compares the classes and then the tuples of field values; every other
    object falls back on identity. *)
Fixpoint py_eq (depth : nat) (h : list instance) (a b : value) : bool :=
  value_eqb a b ||
  match depth with
  | 0 => false
  | S k =>
      match a, b with
      | VBool x, VInt n => Z.eqb (Z.b2z x) n
      | VInt n, VBool x => Z.eqb n (Z.b2z x)
      | VList xs, VList ys => all2 (py_eq k h) xs ys
      | VRef l, VRef m =>
          match h !! l, h !! m with
          | Some o, Some p =>
              dc_eq (params_of (cls o)) && class_eqb (cls o) (cls p)
              && all2 (py_eq k h) (map snd (fields o)) (map snd (fields p))
          | _, _ => false
          end
      | _, _ => false
      end
  end.

(** ** Well-formed inputs *)

Definition names_eqb (xs ys : list string) : bool := all2 String.eqb xs ys.

(** [l] is the address of an instance of [c] carrying exactly the fields
    [c] declares. *)
Definition is_instance (w : world) (l : loc) (c : class_name) : bool :=
  match heap w !! l with
  | Some o => class_eqb (cls o) c && names_eqb (map fst (fields o)) (dataclass_fields c)
  | None => false
  end.

Definition is_factory (w : world) (self : loc) : bool :=
  is_instance w self EndpointInstructionFactory.

(** The value of field [name] of the object at [l], when there is one. *)
Definition field (w : world) (l : loc) (name : string) : option value :=
  match heap w !! l with
  | Some o => assoc name (fields o)
  | None => None
  end.

(** ** What the operations allocate *)

Definition identity_key (p m n : value) : list (string * value) :=
  [("endpoint_path", p); ("endpoint_methods", m); ("endpoint_func_name", n)].

Definition factory_instance (p m n : value) : instance :=
  Instance EndpointInstructionFactory (identity_key p m n).

(** The payload [had] builds from the keywords of a call. *)
Definition payload_of (kwargs : gmap string value) : instance :=
  Instance EndpointAttributesPayload
    (map (fun f => (f, default Sentinel (kwargs !! f))) had_keywords).

(** The objects an operation adds to the store, in allocation order, for a
    factory with key [(p, m, n)] when [next] is the first free address. *)
Definition constructed (op : operation) (p m n : value) (next : loc)
  : list instance :=
  match op with
  | OpDidntExist => [Instance EndpointDidntExistInstruction (identity_key p m n)]
  | OpExisted => [Instance EndpointExistedInstruction (identity_key p m n)]
  | OpHad kwargs =>
      [payload_of kwargs;
       Instance EndpointHadInstruction
         (identity_key p m n ++ [("attributes", VRef next)])]
  | OpWas g =>
      [Instance EndpointWasInstruction
         (identity_key p m n ++ [("get_old_endpoint", g)])]
  end.

(** A call the signatures accept: [had] takes no keyword besides its own. *)
Definition accepted (op : operation) : bool :=
  match op with
  | OpHad kwargs => negb (unexpected_keywords had_keywords kwargs)
  | _ => true
  end.

(** The class of the instruction an operation returns. *)
Definition instruction_class (op : operation) : class_name :=
  match op with
  | OpDidntExist => EndpointDidntExistInstruction
  | OpExisted => EndpointExistedInstruction
  | OpHad _ => EndpointHadInstruction
  | OpWas _ => EndpointWasInstruction
  end.

(** Position of the returned instruction among the objects the operation
    allocates: [had] builds its payload first. *)
Definition result_offset (op : operation) : nat :=
  match op with
  | OpHad _ => 1
  | _ => 0
  end.

(** ** Running examples *)

(** [endpoint("/users", ["GET"])] in an empty store. *)
Definition users_world : world :=
  snd (endpoint [VStr "/users"; VList [VStr "GET"]] ∅ empty_world).

(** A producer that looks up a handler of the module by name, as a
    forward reference does. *)
Definition lookup_global (name : string) : M value :=
  fun w =>
    match globals w !! name with
    | Some v => (Return v, w)
    | None => (Raise NameError, w)
    end.

Definition define_global (name : string) (v : value) (w : world) : world :=
  {| heap := heap w; globals := <[name := v]> (globals w); trace := trace w |}.

(** ** Uses of the module in sequence *)

(** One use of the module by client code: a call of [endpoint], an
    operation of a factory, or an assignment to an attribute. *)
Inductive action : Type :=
  | AEndpoint (args : list value) (kwargs : gmap string value)
  | APerform (op : operation) (self : loc)
  | ASetattr (l : loc) (name : string) (v : value).

(** The store after one use; a use that raises is caught and the next
    one runs in the store the failed one left. *)
Definition run_action (a : action) (w : world) : world :=
  match a with
  | AEndpoint args kwargs => snd (endpoint args kwargs w)
  | APerform op self => snd (perform op self w)
  | ASetattr l name v => snd (setattr l name v w)
  end.

Definition run_actions (acts : list action) (w : world) : world :=
  fold_left (fun w a => run_action a w) acts w.

(** The use is an assignment to [__class__]. *)
Definition assigns_class (a : action) : bool :=
  match a with
  | ASetattr _ name _ => String.eqb name "__class__"
  | _ => false
  end.

(** An object carries exactly the fields its class declares, in order. *)
Definition well_formed (o : instance) : bool :=
  names_eqb (map fst (fields o)) (dataclass_fields (cls o)).

Definition store_ok (w : world) : bool := forallb well_formed (heap w).

(** How a store may change: objects stay where they are and keep their
    class, well-formed stores stay well-formed, and neither the module
    namespace nor the trace of calls moves. *)
Definition evolves (w w' : world) : Prop :=
  (store_ok w = true -> store_ok w' = true) /\
  (forall l o, heap w !! l = Some o ->
     exists o', heap w' !! l = Some o' /\ cls o' = cls o) /\
  globals w' = globals w /\
  trace w' = trace w.

Definition respects {A} (m : M A) : Prop := forall w, evolves w (snd (m w)).

(** The calls a generated [__init__] with parameters [params] accepts:
    no more positional arguments than parameters, no keyword given twice,
    and keywords naming exactly the parameters the positional arguments
    leave unbound. *)
Definition bindable (params : list string) (args : list value)
    (kwargs : list (string * value)) : Prop :=
  length args <= length params /\
  NoDup (map fst kwargs) /\
  (forall k, In k (map fst kwargs) -> In k (drop (length args) params)) /\
  (forall f, In f (drop (length args) params) -> In f (map fst kwargs)).

(** A program that builds a factory, runs operations on it (and on an
    instruction), assigns to declared and undeclared names, and makes a
    call that raises. *)
Definition sample_actions : list action :=
  [AEndpoint [VStr "/users"; VList [VStr "GET"]] ∅;
   APerform (OpHad (<["status_code" := VInt 200]> ∅)) 0;
   ASetattr 1 "status_code" (VInt 404);
   ASetattr 2 "attributes" VNone;
   ASetattr 0 "endpoint_path" (VStr "/admin");
   ASetattr 0 "colour" (VStr "red");
   APerform (OpWas (VCallable 0)) 0;
   APerform OpExisted 2;
   AEndpoint [] ∅].

(* ================================================================= *)
(** * Properties *)

(** Closed goals are settled by evaluation. *)
Ltac run := vm_compute; reflexivity.

(** ** The monad *)

Lemma bind_Return {A B} (m : M A) (k : A -> M B) w a w' :
  m w = (Return a, w') -> bind m k w = k a w'.
Proof. intros H. unfold bind. rewrite H. reflexivity. Qed.

Lemma bind_Raise {A B} (m : M A) (k : A -> M B) w e w' :
  m w = (Raise e, w') -> bind m k w = (Raise e, w').
Proof. intros H. unfold bind. rewrite H. reflexivity. Qed.

(** ** Names *)

Lemma class_eqb_eq c d : class_eqb c d = true <-> c = d.
Proof. destruct c, d; simpl; split; congruence. Qed.

Lemma names_eqb_eq xs ys : names_eqb xs ys = true <-> xs = ys.
Proof.
  unfold names_eqb. revert ys.
  induction xs as [|x xs IH]; intros [|y ys]; simpl; try (split; congruence).
  rewrite andb_true_iff, String.eqb_eq, IH. split.
  - intros [-> ->]. reflexivity.
  - intros [= -> ->]. split; reflexivity.
Qed.

Lemma mem_In name names : mem name names = true <-> In name names.
Proof.
  unfold mem. rewrite existsb_exists. split.
  - intros (x & Hx & E). apply String.eqb_eq in E. subst. exact Hx.
  - intros H. exists name. split; [exact H | apply String.eqb_refl].
Qed.

Lemma assoc_Some_mem name fs v :
  assoc name fs = Some v -> mem name (map fst fs) = true.
Proof.
  induction fs as [|[n x] fs IH]; simpl; [discriminate|].
  unfold mem in *. simpl. rewrite (String.eqb_sym name n).
  destruct (String.eqb n name); simpl; auto.
Qed.

Lemma assoc_None_mem name fs :
  assoc name fs = None -> mem name (map fst fs) = false.
Proof.
  induction fs as [|[n x] fs IH]; simpl; [reflexivity|].
  unfold mem in *. simpl. rewrite (String.eqb_sym name n).
  destruct (String.eqb n name); simpl; [discriminate | auto].
Qed.

Lemma assoc_set_same name v fs :
  mem name (map fst fs) = true -> assoc name (assoc_set name v fs) = Some v.
Proof.
  induction fs as [|[n x] fs IH]; simpl; [discriminate|].
  unfold mem in *. simpl. rewrite (String.eqb_sym name n).
  destruct (String.eqb n name) eqn:E; simpl; rewrite E; auto.
Qed.

Lemma assoc_set_other name name' v fs :
  name <> name' -> assoc name' (assoc_set name v fs) = assoc name' fs.
Proof.
  intros Hne. induction fs as [|[n x] fs IH]; simpl; [reflexivity|].
  destruct (String.eqb n name) eqn:E; simpl.
  - apply String.eqb_eq in E. subst n.
    destruct (String.eqb name name') eqn:E'; [|reflexivity].
    apply String.eqb_eq in E'. contradiction.
  - rewrite IH. reflexivity.
Qed.

Lemma assoc_set_names name v fs :
  map fst (assoc_set name v fs) = map fst fs.
Proof.
  induction fs as [|[n x] fs IH]; simpl; [reflexivity|].
  destruct (String.eqb n name); simpl; [reflexivity | rewrite IH; reflexivity].
Qed.

(** ** Equality *)

Lemma value_eqb_refl : forall v, value_eqb v v = true.
Proof.
  fix IH 1. intros [|b|n|s|xs| |f|o|l]; simpl; try reflexivity.
  - destruct b; reflexivity.
  - apply Z.eqb_refl.
  - apply String.eqb_refl.
  - induction xs as [|x xs IHxs]; [reflexivity|].
    rewrite (IH x), IHxs. reflexivity.
  - apply Nat.eqb_refl.
  - apply Nat.eqb_refl.
  - apply Nat.eqb_refl.
Qed.

Lemma all2_refl {A} (p : A -> A -> bool) xs :
  (forall x, p x x = true) -> all2 p xs xs = true.
Proof.
  intros Hp. induction xs as [|x xs IH]; simpl; [reflexivity|].
  rewrite Hp, IH. reflexivity.
Qed.

Lemma all2_impl {A} (p q : A -> A -> bool) xs ys :
  (forall x y, p x y = true -> q x y = true) ->
  all2 p xs ys = true -> all2 q xs ys = true.
Proof.
  intros Hpq. revert ys.
  induction xs as [|x xs IH]; intros [|y ys]; simpl; try congruence.
  rewrite !andb_true_iff. intros [H1 H2]. split; [apply Hpq, H1 | apply IH, H2].
Qed.

Lemma py_eq_refl depth h v : py_eq depth h v v = true.
Proof. destruct depth; simpl; rewrite value_eqb_refl; reflexivity. Qed.

(** A comparison that succeeds still succeeds when allowed to go deeper. *)
Lemma py_eq_deeper depth h a b :
  py_eq depth h a b = true -> py_eq (S depth) h a b = true.
Proof.
  revert a b. induction depth as [|k IH]; intros a b.
  - simpl. rewrite orb_false_r. intros ->. reflexivity.
  - intros H. change (py_eq (S (S k)) h a b) with
      (value_eqb a b ||
       match a, b with
       | VBool x, VInt n => Z.eqb (Z.b2z x) n
       | VInt n, VBool x => Z.eqb n (Z.b2z x)
       | VList xs, VList ys => all2 (py_eq (S k) h) xs ys
       | VRef l, VRef m =>
           match h !! l, h !! m with
           | Some o, Some p =>
               dc_eq (params_of (cls o)) && class_eqb (cls o) (cls p)
               && all2 (py_eq (S k) h) (map snd (fields o)) (map snd (fields p))
           | _, _ => false
           end
       | _, _ => false
       end).
    simpl in H. destruct (value_eqb a b); [reflexivity|]. simpl in *.
    destruct a, b; try discriminate; try exact H.
    + revert H. apply all2_impl. exact IH.
    + destruct (h !! l) as [o|]; [|discriminate].
      destruct (h !! l0) as [p|]; [|discriminate].
      rewrite !andb_true_iff in *. destruct H as [H1 H2].
      split; [exact H1|]. revert H2. apply all2_impl. exact IH.
Qed.

(** A comparison that succeeds still succeeds after allocations. *)
Lemma py_eq_extended depth h news a b :
  py_eq depth h a b = true -> py_eq depth (h ++ news) a b = true.
Proof.
  revert a b. induction depth as [|k IH]; intros a b; [exact id|].
  simpl. destruct (value_eqb a b); [reflexivity|]. simpl.
  destruct a, b; try discriminate; try exact id.
  - apply all2_impl. exact IH.
  - destruct (h !! l) as [o|] eqn:Ho; [|discriminate].
    destruct (h !! l0) as [p|] eqn:Hp; [|discriminate].
    rewrite (lookup_app_l_Some _ _ _ _ Ho), (lookup_app_l_Some _ _ _ _ Hp).
    rewrite !andb_true_iff. intros [H1 H2].
    split; [exact H1|]. revert H2. apply all2_impl. exact IH.
Qed.

(** ** Attribute access *)

Lemma getattr_field w l name v :
  field w l name = Some v -> getattr l name w = (Return v, w).
Proof.
  unfold field, getattr. destruct (heap w !! l) as [o|]; [|discriminate].
  intros ->. reflexivity.
Qed.

Lemma getattr_no_field w l name :
  field w l name = None ->
  String.prefix "__" name = false ->
  mem name factory_operations = false ->
  getattr l name w = (Raise AttributeError, w).
Proof.
  unfold field, getattr, class_level.
  destruct (heap w !! l) as [o|]; [|reflexivity].
  intros -> -> ->. reflexivity.
Qed.

Lemma field_lookup w l o name :
  heap w !! l = Some o -> field w l name = assoc name (fields o).
Proof. intros H. unfold field. rewrite H. reflexivity. Qed.

Lemma factory_shape w self :
  is_factory w self = true ->
  exists p m n, heap w !! self = Some (factory_instance p m n).
Proof.
  unfold is_factory, is_instance.
  destruct (heap w !! self) as [[c fs]|]; [|discriminate].
  simpl. rewrite andb_true_iff, class_eqb_eq, names_eqb_eq.
  intros [-> Hn].
  destruct fs as [|[n1 p] [|[n2 m] [|[n3 n] [|? ?]]]]; try discriminate.
  simpl in Hn. injection Hn as -> -> ->.
  exists p, m, n. reflexivity.
Qed.

Lemma lookup_extended (h news : list instance) l o :
  h !! l = Some o -> (h ++ news) !! l = Some o.
Proof. intros H. apply lookup_app_l_Some. exact H. Qed.

Lemma lookup_new (h news : list instance) i :
  (h ++ news) !! (length h + i) = news !! i.
Proof. rewrite lookup_app_r by lia. f_equal. lia. Qed.

Lemma lookup_next (h : list instance) : h !! length h = None.
Proof. apply lookup_ge_None. lia. Qed.

(** ** The operations, equationally *)

Section FactoryAt.
Variables (w : world) (self : loc) (p m n : value).
Hypothesis Hself : heap w !! self = Some (factory_instance p m n).

Lemma self_path : getattr self "endpoint_path" w = (Return p, w).
Proof. apply getattr_field. rewrite (field_lookup _ _ _ _ Hself). reflexivity. Qed.

Lemma self_methods : getattr self "endpoint_methods" w = (Return m, w).
Proof. apply getattr_field. rewrite (field_lookup _ _ _ _ Hself). reflexivity. Qed.

Lemma self_func_name : getattr self "endpoint_func_name" w = (Return n, w).
Proof. apply getattr_field. rewrite (field_lookup _ _ _ _ Hself). reflexivity. Qed.

Lemma didnt_exist_spec :
  didnt_exist self w =
    (Return (length (heap w)),
     set_heap w (heap w ++ constructed OpDidntExist p m n (length (heap w)))).
Proof.
  unfold didnt_exist.
  rewrite (bind_Return _ _ _ _ _ self_path).
  rewrite (bind_Return _ _ _ _ _ self_methods).
  rewrite (bind_Return _ _ _ _ _ self_func_name).
  reflexivity.
Qed.

Lemma existed_spec :
  existed self w =
    (Return (length (heap w)),
     set_heap w (heap w ++ constructed OpExisted p m n (length (heap w)))).
Proof.
  unfold existed.
  rewrite (bind_Return _ _ _ _ _ self_path).
  rewrite (bind_Return _ _ _ _ _ self_methods).
  rewrite (bind_Return _ _ _ _ _ self_func_name).
  reflexivity.
Qed.

Lemma was_spec g :
  was self g w =
    (Return (length (heap w)),
     set_heap w (heap w ++ constructed (OpWas g) p m n (length (heap w)))).
Proof.
  unfold was.
  rewrite (bind_Return _ _ _ _ _ self_path).
  rewrite (bind_Return _ _ _ _ _ self_methods).
  rewrite (bind_Return _ _ _ _ _ self_func_name).
  reflexivity.
Qed.

Lemma new_payload (arg : string -> value) :
  new EndpointAttributesPayload []
    [("path", arg "path");
     ("response_model", arg "response_model");
     ("status_code", arg "status_code");
     ("tags", arg "tags");
     ("dependencies", arg "dependencies");
     ("summary", arg "summary");
     ("description", arg "description");
     ("response_description", arg "response_description");
     ("responses", arg "responses");
     ("deprecated", arg "deprecated");
     ("methods", arg "methods");
     ("operation_id", arg "operation_id");
     ("include_in_schema", arg "include_in_schema");
     ("response_class", arg "response_class");
     ("name", arg "name");
     ("callbacks", arg "callbacks");
     ("openapi_extra", arg "openapi_extra");
     ("generate_unique_id_function", arg "generate_unique_id_function")]
  = alloc (Instance EndpointAttributesPayload
             (map (fun f => (f, arg f)) had_keywords)).
Proof. vm_compute. reflexivity. Qed.

Lemma had_spec kwargs :
  unexpected_keywords had_keywords kwargs = false ->
  had self kwargs w =
    (Return (S (length (heap w))),
     set_heap w (heap w ++ constructed (OpHad kwargs) p m n (length (heap w)))).
Proof.
  intros U. unfold had. rewrite U.
  rewrite (bind_Return _ _ _ _ _ self_path).
  rewrite (bind_Return _ _ _ _ _ self_methods).
  rewrite (bind_Return _ _ _ _ _ self_func_name).
  rewrite (new_payload (fun name => default Sentinel (kwargs !! name))).
  unfold bind at 1, alloc at 1.
  unfold new, alloc, set_heap. simpl.
  rewrite length_app, <- app_assoc. simpl.
  replace (length (heap w) + 1) with (S (length (heap w))) by lia.
  reflexivity.
Qed.

Lemma had_rejected kwargs :
  unexpected_keywords had_keywords kwargs = true ->
  had self kwargs w = (Raise TypeError, w).
Proof. intros U. unfold had. rewrite U. reflexivity. Qed.

Lemma perform_spec op :
  accepted op = true ->
  perform op self w =
    (Return (length (heap w) + result_offset op),
     set_heap w (heap w ++ constructed op p m n (length (heap w)))).
Proof.
  destruct op as [| |kwargs|g]; simpl; intros Hacc.
  - rewrite Nat.add_0_r. apply didnt_exist_spec.
  - rewrite Nat.add_0_r. apply existed_spec.
  - rewrite Nat.add_1_r. apply had_spec.
    apply negb_true_iff in Hacc. exact Hacc.
  - rewrite Nat.add_0_r. apply was_spec.
Qed.

Lemma perform_rejected op :
  accepted op = false -> perform op self w = (Raise TypeError, w).
Proof.
  destruct op as [| |kwargs|g]; simpl; try discriminate.
  intros Hacc. apply negb_false_iff in Hacc. apply had_rejected. exact Hacc.
Qed.

(** The instruction an accepted operation returns. *)
Lemma constructed_result op :
  heap (set_heap w (heap w ++ constructed op p m n (length (heap w))))
    !! (length (heap w) + result_offset op)
  = Some (Instance (instruction_class op)
            (identity_key p m n ++
             match op with
             | OpHad _ => [("attributes", VRef (length (heap w)))]
             | OpWas g => [("get_old_endpoint", g)]
             | _ => []
             end)).
Proof. cbn [heap set_heap]. rewrite lookup_new. destruct op; reflexivity. Qed.

End FactoryAt.

(** ** Fields of the constructed objects *)

Lemma assoc_table (arg : string -> value) names f :
  assoc f (map (fun g => (g, arg g)) names)
  = if mem f names then Some (arg f) else None.
Proof.
  induction names as [|g names IH]; simpl; [reflexivity|].
  unfold mem in *. simpl. rewrite (String.eqb_sym f g).
  destruct (String.eqb g f) eqn:E; simpl; [|exact IH].
  apply String.eqb_eq in E. subst g. reflexivity.
Qed.

Lemma payload_field kwargs f :
  In f had_keywords ->
  assoc f (fields (payload_of kwargs)) = Some (default Sentinel (kwargs !! f)).
Proof.
  intros Hf. unfold payload_of. cbn [fields]. rewrite assoc_table.
  apply mem_In in Hf. rewrite Hf. reflexivity.
Qed.

Lemma expected_keyword allowed (kwargs : gmap string value) f v :
  unexpected_keywords allowed kwargs = false ->
  kwargs !! f = Some v -> In f allowed.
Proof.
  unfold unexpected_keywords. intros U Hf.
  apply negb_false_iff in U. rewrite forallb_forall in U.
  apply mem_In. apply (U (f, v)).
  apply list_elem_of_In, elem_of_map_to_list. exact Hf.
Qed.

Lemma is_Sentinel_eq v : is_Sentinel v = true <-> v = Sentinel.
Proof. destruct v; simpl; split; intros H; try discriminate; reflexivity. Qed.

(** ** C6: the existence instructions *)

(** C6.  On every factory, [didnt_exist] and [existed] return an
    instruction whose fields are exactly the identity key of the factory,
    with the factory's values; it has no payload: reading [attributes], or
    any attribute field of a payload, raises [AttributeError]. *)
Theorem existence_instructions_carry_identity_only op self w :
  is_factory w self = true ->
  op = OpDidntExist \/ op = OpExisted ->
  exists l w',
    perform op self w = (Return l, w') /\
    is_instance w' l (instruction_class op) = true /\
    (forall f, In f identity_fields ->
       exists v, field w self f = Some v /\ getattr l f w' = (Return v, w')) /\
    (forall f, In f (dataclass_fields EndpointAttributesPayload) ->
       getattr l f w' = (Raise AttributeError, w')) /\
    getattr l "attributes" w' = (Raise AttributeError, w').
Proof.
  intros Hfac Hop.
  destruct (factory_shape _ _ Hfac) as (p & m & n & Hself).
  assert (Hacc : accepted op = true) by (destruct Hop; subst; reflexivity).
  exists (length (heap w) + result_offset op),
         (set_heap w (heap w ++ constructed op p m n (length (heap w)))).
  pose proof (constructed_result w p m n op) as Hl.
  assert (Hfs : forall f,
    field (set_heap w (heap w ++ constructed op p m n (length (heap w))))
          (length (heap w) + result_offset op) f = assoc f (identity_key p m n)).
  { intros f. rewrite (field_lookup _ _ _ _ Hl).
    destruct Hop; subst; reflexivity. }
  split; [apply (perform_spec _ _ _ _ _ Hself _ Hacc)|].
  split.
  { unfold is_instance. rewrite Hl.
    destruct Hop; subst; reflexivity. }
  split.
  { intros f Hf. rewrite (field_lookup _ _ _ _ Hself). simpl fields.
    destruct (assoc f (identity_key p m n)) as [v|] eqn:E.
    - exists v. split; [reflexivity|]. apply getattr_field. rewrite Hfs. exact E.
    - apply assoc_None_mem in E. apply mem_In in Hf.
      change (map fst (identity_key p m n)) with identity_fields in E.
      congruence. }
  split.
  { intros f Hf. simpl in Hf.
    repeat (destruct Hf as [<-|Hf];
            [apply getattr_no_field; [rewrite Hfs; reflexivity | reflexivity..]|]).
    destruct Hf. }
  apply getattr_no_field; [rewrite Hfs; reflexivity | reflexivity..].
Qed.

Lemma existence_instructions_carry_identity_only_witness :
  is_factory users_world 0 = true /\
  exists l w',
    perform OpExisted 0 users_world = (Return l, w') /\
    is_instance w' l (instruction_class OpExisted) = true /\
    (forall f, In f identity_fields ->
       exists v, field users_world 0 f = Some v /\ getattr l f w' = (Return v, w')) /\
    (forall f, In f (dataclass_fields EndpointAttributesPayload) ->
       getattr l f w' = (Raise AttributeError, w')) /\
    getattr l "attributes" w' = (Raise AttributeError, w').
Proof.
  split; [reflexivity|].
  apply (existence_instructions_carry_identity_only OpExisted 0 users_world).
  - reflexivity.
  - right. reflexivity.
Defined.

(** The second example of the spec, evaluated:
    [endpoint("/users", ["GET", "POST"]).existed]. *)
Example existed_users_example :
  let w := snd (endpoint [VStr "/users"; VList [VStr "GET"; VStr "POST"]] ∅ empty_world) in
  exists w',
    existed 0 w = (Return 1, w') /\
    is_instance w' 1 EndpointExistedInstruction = true /\
    getattr 1 "endpoint_methods" w' = (Return (VList [VStr "GET"; VStr "POST"]), w') /\
    getattr 1 "attributes" w' = (Raise AttributeError, w').
Proof. eexists. repeat split; reflexivity. Qed.

(** ** C3: the union alias *)

(** C3, counterexample.  The instruction that [was] returns on the factory
    of [endpoint("/users", ["GET"])] is not a member of
    [AlterEndpointSubInstruction]. *)
Lemma was_instruction_outside_union :
  exists l w',
    perform (OpWas (VCallable 0)) 0 users_world = (Return l, w') /\
    is_instance w' l EndpointWasInstruction = true /\
    isinstance w' (VRef l) AlterEndpointSubInstruction <> true.
Proof.
  exists 1. eexists. split; [reflexivity|]. split; [reflexivity|].
  vm_compute. discriminate.
Qed.

(** C3, amended.  [AlterEndpointSubInstruction] is the union of three
    classes.  The instructions of [didnt_exist], [existed] and [had] are
    members of it; the instruction of [was] never is. *)
Theorem union_covers_all_but_was op self w :
  is_factory w self = true ->
  accepted op = true ->
  exists l w',
    perform op self w = (Return l, w') /\
    is_instance w' l (instruction_class op) = true /\
    isinstance w' (VRef l) AlterEndpointSubInstruction
    = match op with
      | OpWas _ => false
      | _ => true
      end.
Proof.
  intros Hfac Hacc.
  destruct (factory_shape _ _ Hfac) as (p & m & n & Hself).
  exists (length (heap w) + result_offset op),
         (set_heap w (heap w ++ constructed op p m n (length (heap w)))).
  pose proof (constructed_result w p m n op) as Hl.
  split; [apply (perform_spec _ _ _ _ _ Hself _ Hacc)|].
  unfold is_instance, isinstance. rewrite Hl.
  destruct op; split; reflexivity.
Qed.

Lemma union_covers_all_but_was_witness :
  is_factory users_world 0 = true /\
  accepted (OpHad (<["tags" := VList []]> ∅)) = true /\
  exists l w',
    perform (OpHad (<["tags" := VList []]> ∅)) 0 users_world = (Return l, w') /\
    is_instance w' l EndpointHadInstruction = true /\
    isinstance w' (VRef l) AlterEndpointSubInstruction = true.
Proof.
  split; [reflexivity|]. split; [reflexivity|].
  apply (union_covers_all_but_was (OpHad (<["tags" := VList []]> ∅)) 0 users_world);
    reflexivity.
Defined.

(** ** C5: [was] is lazy *)

(** C5.  [was] returns without invoking anything: the trace of calls is
    the one it started with, whatever the producer is.  The instruction
    holds the producer itself, so in every later world that still holds
    the instruction, invoking the stored reference is invoking the
    producer in that world. *)
Theorem was_stores_producer_uninvoked (code : nat -> M value) self producer w :
  is_factory w self = true ->
  exists l w',
    was self producer w = (Return l, w') /\
    trace w' = trace w /\
    globals w' = globals w /\
    getattr l "get_old_endpoint" w' = (Return producer, w') /\
    forall w2, heap w2 !! l = heap w' !! l ->
      (let* stored := getattr l "get_old_endpoint" in call code stored) w2
      = call code producer w2.
Proof.
  intros Hfac.
  destruct (factory_shape _ _ Hfac) as (p & m & n & Hself).
  pose proof (constructed_result w p m n (OpWas producer)) as Hl.
  simpl result_offset in Hl. rewrite Nat.add_0_r in Hl.
  eexists _, _. split; [apply (was_spec _ _ _ _ _ Hself)|].
  split; [reflexivity|]. split; [reflexivity|].
  assert (G : forall w2, heap w2 !! length (heap w)
                = heap (set_heap w (heap w ++
                    constructed (OpWas producer) p m n (length (heap w))))
                  !! length (heap w) ->
              getattr (length (heap w)) "get_old_endpoint" w2 = (Return producer, w2)).
  { intros w2 H2. apply getattr_field. unfold field. rewrite H2, Hl. reflexivity. }
  split; [apply G; reflexivity|].
  intros w2 H2. rewrite (bind_Return _ _ _ _ _ (G w2 H2)). reflexivity.
Qed.

Lemma was_stores_producer_uninvoked_witness :
  is_factory users_world 0 = true /\
  exists l w',
    was 0 (VCallable 0) users_world = (Return l, w') /\
    trace w' = trace users_world /\
    globals w' = globals users_world /\
    getattr l "get_old_endpoint" w' = (Return (VCallable 0), w') /\
    forall w2, heap w2 !! l = heap w' !! l ->
      (let* stored := getattr l "get_old_endpoint" in
       call (fun _ => lookup_global "get_users_v1") stored) w2
      = call (fun _ => lookup_global "get_users_v1") (VCallable 0) w2.
Proof.
  split; [reflexivity|].
  apply (was_stores_producer_uninvoked
           (fun _ => lookup_global "get_users_v1") 0 (VCallable 0) users_world).
  reflexivity.
Defined.

(** A forward reference.  The producer reads a handler the module defines
    only after the instruction is built: invoked at construction time it
    would raise, invoked once the handler exists it returns it. *)
Example was_forward_reference :
  let code := fun _ : nat => lookup_global "get_users_v1" in
  let w' := snd (was 0 (VCallable 0) users_world) in
  let later := define_global "get_users_v1" (VObj 7) w' in
  fst (was 0 (VCallable 0) users_world) = Return 1 /\
  trace w' = [] /\
  fst (call code (VCallable 0) w') = Raise NameError /\
  fst ((let* stored := getattr 1 "get_old_endpoint" in call code stored) later)
  = Return (VObj 7).
Proof. repeat split; reflexivity. Qed.

(** ** C7: [was] does not check its argument *)

(** C7, counterexample.  [was(42)] on the factory of
    [endpoint("/users", ["GET"])] returns an instruction; nothing is
    raised. *)
Lemma was_accepts_noncallable :
  callable (VInt 42) = false /\
  (exists l w',
     was 0 (VInt 42) users_world = (Return l, w') /\
     getattr l "get_old_endpoint" w' = (Return (VInt 42), w')) /\
  ~ (exists e w', was 0 (VInt 42) users_world = (Raise e, w')).
Proof.
  split; [reflexivity|]. split.
  - exists 1. eexists. split; reflexivity.
  - intros (e & w' & H). vm_compute in H. discriminate.
Qed.

(** C7, amended.  [was] accepts any value: on every factory it returns a
    [Was] instruction that stores the value as given.  A value that is not
    callable raises [TypeError] only when it is invoked. *)
Theorem was_accepts_any_value (code : nat -> M value) self g w :
  is_factory w self = true ->
  exists l w',
    was self g w = (Return l, w') /\
    is_instance w' l EndpointWasInstruction = true /\
    getattr l "get_old_endpoint" w' = (Return g, w') /\
    (callable g = false ->
     (let* stored := getattr l "get_old_endpoint" in call code stored) w'
     = (Raise TypeError, w')).
Proof.
  intros Hfac.
  destruct (factory_shape _ _ Hfac) as (p & m & n & Hself).
  pose proof (constructed_result w p m n (OpWas g)) as Hl.
  simpl result_offset in Hl. rewrite Nat.add_0_r in Hl.
  eexists _, _. split; [apply (was_spec _ _ _ _ _ Hself)|].
  split; [unfold is_instance; rewrite Hl; reflexivity|].
  assert (G : getattr (length (heap w)) "get_old_endpoint"
                (set_heap w (heap w ++
                   constructed (OpWas g) p m n (length (heap w))))
              = (Return g, set_heap w (heap w ++
                   constructed (OpWas g) p m n (length (heap w))))).
  { apply getattr_field. unfold field. rewrite Hl. reflexivity. }
  split; [exact G|].
  intros Hg. rewrite (bind_Return _ _ _ _ _ G).
  destruct g; try discriminate; reflexivity.
Qed.

Lemma was_accepts_any_value_witness :
  is_factory users_world 0 = true /\
  exists l w',
    was 0 VNone users_world = (Return l, w') /\
    is_instance w' l EndpointWasInstruction = true /\
    getattr l "get_old_endpoint" w' = (Return VNone, w') /\
    (callable VNone = false ->
     (let* stored := getattr l "get_old_endpoint" in
      call (fun _ => ret VNone) stored) w'
     = (Raise TypeError, w')).
Proof.
  split; [reflexivity|].
  apply (was_accepts_any_value (fun _ => ret VNone) 0 VNone users_world).
  reflexivity.
Defined.

(** ** C9: the operations only allocate *)

(** C9.  Every operation on a factory leaves each object of the store as
    it was, the factory and its three fields included, and leaves the
    module namespace and the trace of calls alone.  What the operation
    adds to the store is the instruction it returns and, for [had], the
    payload that instruction refers to.  A call the signature rejects
    changes nothing at all. *)
Theorem factory_operations_are_pure op self w :
  is_factory w self = true ->
  exists r w',
    perform op self w = (r, w') /\
    (accepted op = true -> exists l, r = Return l) /\
    (accepted op = false -> r = Raise TypeError /\ w' = w) /\
    (forall l o, heap w !! l = Some o -> heap w' !! l = Some o) /\
    (forall f, field w' self f = field w self f) /\
    is_factory w' self = true /\
    globals w' = globals w /\
    trace w' = trace w /\
    (forall o, heap w !! o = None -> is_Some (heap w' !! o) ->
       exists l, r = Return l /\
         (o = l \/ field w' l "attributes" = Some (VRef o))).
Proof.
  intros Hfac.
  destruct (factory_shape _ _ Hfac) as (p & m & n & Hself).
  destruct (accepted op) eqn:Hacc.
  - eexists _, _. split; [apply (perform_spec _ _ _ _ _ Hself _ Hacc)|].
    pose proof (constructed_result w p m n op) as Hl.
    set (w' := set_heap w (heap w ++ constructed op p m n (length (heap w)))) in *.
    assert (Hold : forall l o, heap w !! l = Some o -> heap w' !! l = Some o).
    { intros l o H. apply lookup_extended. exact H. }
    split; [eauto|]. split; [discriminate|]. split; [exact Hold|].
    split; [intros f; unfold field; rewrite Hself, (Hold _ _ Hself); reflexivity|].
    split; [unfold is_factory, is_instance in *; rewrite (Hold _ _ Hself);
            rewrite Hself in Hfac; exact Hfac|].
    split; [reflexivity|]. split; [reflexivity|].
    intros o Hnone [x Hx]. eexists. split; [reflexivity|].
    apply lookup_ge_None in Hnone.
    apply lookup_lt_Some in Hx. subst w'. cbn [heap set_heap] in Hx.
    rewrite length_app in Hx.
    destruct op as [| |kwargs|g]; simpl in Hx; simpl result_offset.
    + left. lia.
    + left. lia.
    + destruct (decide (o = length (heap w) + 1)) as [->|Hne]; [left; reflexivity|].
      right. rewrite (field_lookup _ _ _ _ Hl). simpl.
      do 2 f_equal. lia.
    + left. lia.
  - exists (Raise TypeError), w.
    split; [apply perform_rejected; exact Hacc|].
    split; [discriminate|]. split; [split; reflexivity|].
    split; [auto|]. split; [reflexivity|]. split; [exact Hfac|].
    split; [reflexivity|]. split; [reflexivity|].
    intros o Hnone [x Hx]. congruence.
Qed.

Lemma factory_operations_are_pure_witness :
  is_factory users_world 0 = true /\
  exists r w',
    perform (OpHad (<["status_code" := VInt 200]> ∅)) 0 users_world = (r, w') /\
    (accepted (OpHad (<["status_code" := VInt 200]> ∅)) = true ->
     exists l, r = Return l) /\
    (accepted (OpHad (<["status_code" := VInt 200]> ∅)) = false ->
     r = Raise TypeError /\ w' = users_world) /\
    (forall l o, heap users_world !! l = Some o -> heap w' !! l = Some o) /\
    (forall f, field w' 0 f = field users_world 0 f) /\
    is_factory w' 0 = true /\
    globals w' = globals users_world /\
    trace w' = trace users_world /\
    (forall o, heap users_world !! o = None -> is_Some (heap w' !! o) ->
       exists l, r = Return l /\
         (o = l \/ field w' l "attributes" = Some (VRef o))).
Proof.
  split; [reflexivity|].
  apply (factory_operations_are_pure
           (OpHad (<["status_code" := VInt 200]> ∅)) 0 users_world).
  reflexivity.
Defined.

(** ** C1, C2: the payload of [had] *)

Lemma had_result self kwargs w :
  is_factory w self = true ->
  unexpected_keywords had_keywords kwargs = false ->
  exists l pl w',
    had self kwargs w = (Return l, w') /\
    is_instance w' l EndpointHadInstruction = true /\
    getattr l "attributes" w' = (Return (VRef pl), w') /\
    heap w' !! pl = Some (payload_of kwargs).
Proof.
  intros Hfac U.
  destruct (factory_shape _ _ Hfac) as (p & m & n & Hself).
  pose proof (constructed_result w p m n (OpHad kwargs)) as Hl.
  simpl result_offset in Hl. rewrite Nat.add_1_r in Hl.
  exists (S (length (heap w))), (length (heap w)).
  eexists. split; [apply (had_spec _ _ _ _ _ Hself _ U)|].
  split; [unfold is_instance; rewrite Hl; reflexivity|].
  split.
  - apply getattr_field. rewrite (field_lookup _ _ _ _ Hl). reflexivity.
  - cbn [heap set_heap]. rewrite <- (Nat.add_0_r (length (heap w))) at 1.
    rewrite lookup_new. reflexivity.
Qed.

(** C1, counterexample.  [had(response_model=Sentinel)] mentions
    [response_model], and the payload field holds the Sentinel marker all
    the same: "holds the marker if and only if not mentioned" fails. *)
Lemma had_mentioned_field_holds_Sentinel :
  let kwargs : gmap string value := <["response_model" := Sentinel]> ∅ in
  exists l pl w' v,
    had 0 kwargs users_world = (Return l, w') /\
    getattr l "attributes" w' = (Return (VRef pl), w') /\
    getattr pl "response_model" w' = (Return v, w') /\
    ~ (is_Sentinel v = true <-> kwargs !! "response_model" = None).
Proof.
  intros kwargs.
  exists 2, 1, (snd (had 0 kwargs users_world)), Sentinel.
  split; [run|]. split; [run|]. split; [run|].
  intros [H _]. specialize (H eq_refl). vm_compute in H. discriminate.
Qed.

(** C1, amended.  On every factory, for every accepted call of [had],
    every payload field the call does not mention holds the Sentinel
    marker, whatever the field's type; and a payload field holds the marker
    if and only if the call did not mention it or passed the marker
    itself. *)
Theorem had_unmentioned_fields_hold_Sentinel self kwargs w :
  is_factory w self = true ->
  unexpected_keywords had_keywords kwargs = false ->
  exists l pl w',
    had self kwargs w = (Return l, w') /\
    getattr l "attributes" w' = (Return (VRef pl), w') /\
    is_instance w' pl EndpointAttributesPayload = true /\
    forall f, In f (dataclass_fields EndpointAttributesPayload) ->
      exists v,
        getattr pl f w' = (Return v, w') /\
        (kwargs !! f = None -> is_Sentinel v = true) /\
        (is_Sentinel v = true <->
         kwargs !! f = None \/ kwargs !! f = Some Sentinel).
Proof.
  intros Hfac U.
  destruct (had_result _ _ _ Hfac U) as (l & pl & w' & Hhad & _ & Hattr & Hpl).
  exists l, pl, w'. split; [exact Hhad|]. split; [exact Hattr|].
  split; [unfold is_instance; rewrite Hpl; reflexivity|].
  intros f Hf. exists (default Sentinel (kwargs !! f)).
  split.
  - apply getattr_field. rewrite (field_lookup _ _ _ _ Hpl).
    apply payload_field. exact Hf.
  - destruct (kwargs !! f) as [v|]; simpl.
    + split; [discriminate|]. rewrite is_Sentinel_eq. split.
      * intros ->. right. reflexivity.
      * intros [H|H]; [discriminate | congruence].
    + split; [reflexivity|]. split; [left|]; reflexivity.
Qed.

Lemma had_unmentioned_fields_hold_Sentinel_witness :
  let kwargs : gmap string value :=
    <["status_code" := VInt 200]> (<["tags" := VList []]> ∅) in
  is_factory users_world 0 = true /\
  unexpected_keywords had_keywords kwargs = false /\
  exists l pl w',
    had 0 kwargs users_world = (Return l, w') /\
    getattr l "attributes" w' = (Return (VRef pl), w') /\
    is_instance w' pl EndpointAttributesPayload = true /\
    forall f, In f (dataclass_fields EndpointAttributesPayload) ->
      exists v,
        getattr pl f w' = (Return v, w') /\
        (kwargs !! f = None -> is_Sentinel v = true) /\
        (is_Sentinel v = true <->
         kwargs !! f = None \/ kwargs !! f = Some Sentinel).
Proof.
  intros kwargs. split; [reflexivity|]. split; [reflexivity|].
  apply (had_unmentioned_fields_hold_Sentinel 0 kwargs users_world); reflexivity.
Defined.

(** C2, counterexample.  [had(path=Sentinel)] passes [path] explicitly,
    and the payload field is identity-equal to the Sentinel marker. *)
Lemma had_passed_field_is_Sentinel :
  let kwargs : gmap string value := <["path" := Sentinel]> ∅ in
  exists l pl w' v,
    is_Some (kwargs !! "path") /\
    had 0 kwargs users_world = (Return l, w') /\
    getattr l "attributes" w' = (Return (VRef pl), w') /\
    getattr pl "path" w' = (Return v, w') /\
    ~ (is_Sentinel v = false).
Proof.
  intros kwargs.
  exists 2, 1, (snd (had 0 kwargs users_world)), Sentinel.
  split; [exists Sentinel; run|].
  split; [run|]. split; [run|]. split; [run|].
  simpl. discriminate.
Qed.

(** C2, amended.  On every factory, for every accepted call of [had] and
    every field the call passes, the payload field holds exactly the passed
    value and compares equal to it; it is distinct from the Sentinel marker
    whenever the passed value is not the marker itself, so [None], [False],
    [0] and [[]] are stored as overrides. *)
Theorem had_stores_passed_values self kwargs w :
  is_factory w self = true ->
  unexpected_keywords had_keywords kwargs = false ->
  exists l pl w',
    had self kwargs w = (Return l, w') /\
    getattr l "attributes" w' = (Return (VRef pl), w') /\
    forall f passed, kwargs !! f = Some passed ->
      exists v,
        getattr pl f w' = (Return v, w') /\
        v = passed /\
        py_eq 0 (heap w') v passed = true /\
        (passed <> Sentinel -> is_Sentinel v = false) /\
        (In passed [VNone; VBool false; VInt 0; VList []] -> is_Sentinel v = false).
Proof.
  intros Hfac U.
  destruct (had_result _ _ _ Hfac U) as (l & pl & w' & Hhad & _ & Hattr & Hpl).
  exists l, pl, w'. split; [exact Hhad|]. split; [exact Hattr|].
  intros f passed Hf. exists passed.
  split.
  - apply getattr_field. rewrite (field_lookup _ _ _ _ Hpl).
    rewrite payload_field by exact (expected_keyword _ _ _ _ U Hf).
    rewrite Hf. reflexivity.
  - split; [reflexivity|]. split; [apply py_eq_refl|]. split.
    + intros Hne. destruct (is_Sentinel passed) eqn:E; [|reflexivity].
      apply is_Sentinel_eq in E. contradiction.
    + simpl. intros [<-|[<-|[<-|[<-|[]]]]]; reflexivity.
Qed.

Lemma had_stores_passed_values_witness :
  let kwargs : gmap string value :=
    <["deprecated" := VBool false]> (<["name" := VNone]> ∅) in
  is_factory users_world 0 = true /\
  unexpected_keywords had_keywords kwargs = false /\
  exists l pl w',
    had 0 kwargs users_world = (Return l, w') /\
    getattr l "attributes" w' = (Return (VRef pl), w') /\
    forall f passed, kwargs !! f = Some passed ->
      exists v,
        getattr pl f w' = (Return v, w') /\
        v = passed /\
        py_eq 0 (heap w') v passed = true /\
        (passed <> Sentinel -> is_Sentinel v = false) /\
        (In passed [VNone; VBool false; VInt 0; VList []] -> is_Sentinel v = false).
Proof.
  intros kwargs. split; [reflexivity|]. split; [reflexivity|].
  apply (had_stores_passed_values 0 kwargs users_world); reflexivity.
Defined.

(** The first example of the spec, evaluated:
    [endpoint("/users", ["GET"]).had(status_code=200, tags=[])]. *)
Example had_users_example :
  let kwargs : gmap string value :=
    <["status_code" := VInt 200]> (<["tags" := VList []]> ∅) in
  let w' := snd (had 0 kwargs users_world) in
  fst (had 0 kwargs users_world) = Return 2 /\
  is_instance w' 2 EndpointHadInstruction = true /\
  field w' 2 "attributes" = Some (VRef 1) /\
  field w' 1 "status_code" = Some (VInt 200) /\
  field w' 1 "tags" = Some (VList []) /\
  is_Sentinel (VList []) = false /\
  field w' 1 "summary" = Some Sentinel.
Proof. repeat split; run. Qed.

(** ** C4: [endpoint] does not validate *)




(** ** C8: fields can be reassigned *)

Lemma setattr_declared w l o f v :
  heap w !! l = Some o ->
  mem f (map fst (fields o)) = true ->
  setattr l f v w
  = (Return tt,
     set_heap w (<[l := Instance (cls o) (assoc_set f v (fields o))]> (heap w))).
Proof. intros Hl Hf. unfold setattr. rewrite Hl. simpl. rewrite Hf. reflexivity. Qed.

Lemma constructed_well_formed op p m n next c :
  In c (constructed op p m n next) ->
  map fst (fields c) = dataclass_fields (cls c).
Proof.
  destruct op; simpl; intros H;
    repeat (destruct H as [<-|H]; [reflexivity|]); destruct H.
Qed.

(** C8, counterexample.  After [existed] on the factory of
    [endpoint("/users", ["GET"])], assigning ["/admin"] to the
    instruction's [endpoint_path] succeeds and the field then reads
    ["/admin"]; the same holds for [status_code] of a payload. *)
Lemma instruction_field_reassigned :
  let w1 := snd (existed 0 users_world) in
  let w2 := snd (setattr 1 "endpoint_path" (VStr "/admin") w1) in
  let v1 := snd (had 0 (<["status_code" := VInt 200]> ∅) users_world) in
  let v2 := snd (setattr 1 "status_code" (VInt 404) v1) in
  fst (existed 0 users_world) = Return 1 /\
  field w1 1 "endpoint_path" = Some (VStr "/users") /\
  fst (setattr 1 "endpoint_path" (VStr "/admin") w1) = Return tt /\
  field w2 1 "endpoint_path" = Some (VStr "/admin") /\
  is_instance v1 1 EndpointAttributesPayload = true /\
  fst (setattr 1 "status_code" (VInt 404) v1) = Return tt /\
  field v2 1 "status_code" = Some (VInt 404) /\
  ~ (exists e, fst (setattr 1 "endpoint_path" (VStr "/admin") w1) = Raise e).
Proof.
  repeat split; try run.
  intros [e H]. vm_compute in H. discriminate.
Qed.

(** C8, amended.  The objects an operation builds (the instruction and,
    for [had], its payload) are not frozen: assigning to any of their
    fields succeeds, the field then holds the new value, and no other
    field or object changes. *)
Theorem constructed_objects_are_assignable op self w :
  is_factory w self = true ->
  accepted op = true ->
  exists l w',
    perform op self w = (Return l, w') /\
    heap w !! l = None /\
    forall o c, heap w !! o = None -> heap w' !! o = Some c ->
      forall f v, In f (dataclass_fields (cls c)) ->
        exists w'',
          setattr o f v w' = (Return tt, w'') /\
          getattr o f w'' = (Return v, w'') /\
          (forall f', f' <> f -> field w'' o f' = field w' o f') /\
          (forall o', o' <> o -> heap w'' !! o' = heap w' !! o').
Proof.
  intros Hfac Hacc.
  destruct (factory_shape _ _ Hfac) as (p & m & n & Hself).
  eexists _, _. split; [apply (perform_spec _ _ _ _ _ Hself _ Hacc)|].
  split; [apply lookup_ge_None; lia|].
  set (w' := set_heap w (heap w ++ constructed op p m n (length (heap w)))).
  intros o c Hnone Hc f v Hf.
  assert (Hwf : map fst (fields c) = dataclass_fields (cls c)).
  { apply lookup_ge_None in Hnone. subst w'. cbn [heap set_heap] in Hc.
    rewrite lookup_app_r in Hc by exact Hnone.
    apply (constructed_well_formed op p m n (length (heap w))).
    apply list_elem_of_In. eapply list_elem_of_lookup_2. exact Hc. }
  apply mem_In in Hf. rewrite <- Hwf in Hf.
  eexists. split; [apply (setattr_declared _ _ _ _ _ Hc Hf)|].
  assert (Hlt : o < length (heap w')) by (eapply lookup_lt_Some; exact Hc).
  split.
  - apply getattr_field. unfold field. cbn [heap set_heap].
    rewrite list_lookup_insert_eq by exact Hlt. cbn [fields].
    apply assoc_set_same. exact Hf.
  - split.
    + intros f' Hne. unfold field. cbn [heap set_heap].
      rewrite list_lookup_insert_eq by exact Hlt. rewrite Hc. cbn [fields].
      apply assoc_set_other. congruence.
    + intros o' Hne. cbn [heap set_heap].
      apply list_lookup_insert_ne. congruence.
Qed.

Lemma constructed_objects_are_assignable_witness :
  is_factory users_world 0 = true /\
  accepted OpDidntExist = true /\
  exists l w',
    perform OpDidntExist 0 users_world = (Return l, w') /\
    heap users_world !! l = None /\
    forall o c, heap users_world !! o = None -> heap w' !! o = Some c ->
      forall f v, In f (dataclass_fields (cls c)) ->
        exists w'',
          setattr o f v w' = (Return tt, w'') /\
          getattr o f w'' = (Return v, w'') /\
          (forall f', f' <> f -> field w'' o f' = field w' o f') /\
          (forall o', o' <> o -> heap w'' !! o' = heap w' !! o').
Proof.
  split; [reflexivity|]. split; [reflexivity|].
  apply (constructed_objects_are_assignable OpDidntExist 0 users_world); reflexivity.
Defined.

(** ** C10: determinism and freshness *)

Lemma py_eq_instances k h l1 l2 o1 o2 :
  h !! l1 = Some o1 -> h !! l2 = Some o2 ->
  cls o1 = cls o2 ->
  all2 (py_eq k h) (map snd (fields o1)) (map snd (fields o2)) = true ->
  py_eq (S k) h (VRef l1) (VRef l2) = true.
Proof.
  intros H1 H2 Hc Hfs. simpl. rewrite H1, H2, Hfs, Hc.
  replace (class_eqb (cls o2) (cls o2)) with true
    by (symmetry; apply class_eqb_eq; reflexivity).
  apply orb_true_r.
Qed.

Lemma py_eq_instances_inv k h l1 l2 o1 o2 :
  h !! l1 = Some o1 -> h !! l2 = Some o2 ->
  py_eq (S k) h (VRef l1) (VRef l2) = true ->
  all2 (py_eq k h) (map snd (fields o1)) (map snd (fields o2)) = true.
Proof.
  intros H1 H2. simpl. destruct (Nat.eqb l1 l2) eqn:E; simpl.
  - apply Nat.eqb_eq in E. subst l2. intros _.
    assert (o1 = o2) by congruence. subst o2.
    apply all2_refl. intros x. apply py_eq_refl.
  - rewrite H1, H2, !andb_true_iff. intros [_ H]. exact H.
Qed.

(** C10.  Let two factories have equal fields (the same factory twice
    included).  Performing the same accepted operation, with the same
    arguments, on the first and then on the second returns two distinct
    addresses, each unallocated before its call, and the two instructions
    compare equal with the [__eq__] their dataclass generates. *)
Theorem factory_operations_are_deterministic depth op self1 self2 w :
  is_factory w self1 = true ->
  is_factory w self2 = true ->
  accepted op = true ->
  py_eq (S depth) (heap w) (VRef self1) (VRef self2) = true ->
  exists l1 w1 l2 w2,
    perform op self1 w = (Return l1, w1) /\
    perform op self2 w1 = (Return l2, w2) /\
    heap w !! l1 = None /\
    heap w1 !! l2 = None /\
    l1 <> l2 /\
    is_instance w2 l1 (instruction_class op) = true /\
    is_instance w2 l2 (instruction_class op) = true /\
    py_eq (S (S depth)) (heap w2) (VRef l1) (VRef l2) = true.
Proof.
  intros Hfac1 Hfac2 Hacc Heq.
  destruct (factory_shape _ _ Hfac1) as (p1 & m1 & n1 & Hself1).
  destruct (factory_shape _ _ Hfac2) as (p2 & m2 & n2 & Hself2).
  pose proof (py_eq_instances_inv _ _ _ _ _ _ Hself1 Hself2 Heq) as Hkey.
  simpl in Hkey. rewrite !andb_true_iff in Hkey.
  destruct Hkey as (Hp & Hm & Hn & _).
  set (c1 := constructed op p1 m1 n1 (length (heap w))).
  set (w1 := set_heap w (heap w ++ c1)).
  assert (Hself2' : heap w1 !! self2 = Some (factory_instance p2 m2 n2))
    by (apply lookup_extended; exact Hself2).
  set (c2 := constructed op p2 m2 n2 (length (heap w1))).
  set (w2 := set_heap w1 (heap w1 ++ c2)).
  pose proof (constructed_result w p1 m1 n1 op) as Hl1. fold c1 w1 in Hl1.
  pose proof (constructed_result w1 p2 m2 n2 op) as Hl2. fold c2 w2 in Hl2.
  assert (Hlen : length (heap w1) = length (heap w) + S (result_offset op)).
  { subst w1 c1. cbn [heap set_heap]. rewrite length_app.
    destruct op; reflexivity. }
  assert (Hl1' : heap w2 !! (length (heap w) + result_offset op)
                 = heap w1 !! (length (heap w) + result_offset op))
    by (rewrite Hl1; apply lookup_extended; exact Hl1).
  rewrite Hl1 in Hl1'.
  exists (length (heap w) + result_offset op), w1,
         (length (heap w1) + result_offset op), w2.
  split; [apply (perform_spec _ _ _ _ _ Hself1 _ Hacc)|].
  split; [apply (perform_spec _ _ _ _ _ Hself2' _ Hacc)|].
  split; [apply lookup_ge_None; lia|].
  split; [apply lookup_ge_None; lia|].
  split; [lia|].
  split; [unfold is_instance; rewrite Hl1'; destruct op; reflexivity|].
  split; [unfold is_instance; rewrite Hl2; destruct op; reflexivity|].
  assert (Hup : forall a b, py_eq depth (heap w) a b = true ->
                            py_eq (S depth) (heap w2) a b = true).
  { intros a b H. apply py_eq_deeper.
    subst w2 w1. cbn [heap set_heap].
    apply py_eq_extended, py_eq_extended. exact H. }
  apply (py_eq_instances _ _ _ _ _ _ Hl1' Hl2); [reflexivity|].
  cbn [fields]. rewrite !map_app. cbn [map identity_key snd app all2].
  rewrite (Hup _ _ Hp), (Hup _ _ Hm), (Hup _ _ Hn). cbn [andb].
  destruct op as [| |kwargs|g]; cbn [map snd all2].
  - reflexivity.
  - reflexivity.
  - rewrite andb_true_r.
    assert (Hp1 : heap w2 !! length (heap w) = Some (payload_of kwargs)).
    { subst w2. cbn [heap set_heap]. apply lookup_extended.
      subst w1. cbn [heap set_heap].
      rewrite <- (Nat.add_0_r (length (heap w))) at 1.
      rewrite lookup_new. reflexivity. }
    assert (Hp2 : heap w2 !! length (heap w1) = Some (payload_of kwargs)).
    { subst w2. cbn [heap set_heap].
      rewrite <- (Nat.add_0_r (length (heap w1))) at 1.
      rewrite lookup_new. reflexivity. }
    apply (py_eq_instances _ _ _ _ _ _ Hp1 Hp2); [reflexivity|].
    apply all2_refl. intros x. apply py_eq_refl.
  - rewrite py_eq_refl. reflexivity.
Qed.

Lemma factory_operations_are_deterministic_witness :
  let w := snd (endpoint [VStr "/users"; VList [VStr "GET"]] ∅ users_world) in
  let op := OpHad (<["status_code" := VInt 200]> ∅) in
  is_factory w 0 = true /\
  is_factory w 1 = true /\
  accepted op = true /\
  py_eq 1 (heap w) (VRef 0) (VRef 1) = true /\
  exists l1 w1 l2 w2,
    perform op 0 w = (Return l1, w1) /\
    perform op 1 w1 = (Return l2, w2) /\
    heap w !! l1 = None /\
    heap w1 !! l2 = None /\
    l1 <> l2 /\
    is_instance w2 l1 (instruction_class op) = true /\
    is_instance w2 l2 (instruction_class op) = true /\
    py_eq 2 (heap w2) (VRef l1) (VRef l2) = true.
Proof.
  intros w op.
  split; [reflexivity|]. split; [reflexivity|].
  split; [reflexivity|]. split; [reflexivity|].
  apply (factory_operations_are_deterministic 0 op 0 1 w); reflexivity.
Defined.

(** Two [had] calls with different overrides build unequal instructions:
    the comparison is not vacuous. *)
Example had_different_overrides_differ :
  let w1 := snd (had 0 (<["status_code" := VInt 200]> ∅) users_world) in
  let w2 := snd (had 0 (<["status_code" := VInt 201]> ∅) w1) in
  fst (had 0 (<["status_code" := VInt 201]> ∅) w1) = Return 4 /\
  py_eq 5 (heap w2) (VRef 2) (VRef 4) = false.
Proof. split; run. Qed.

(* ================================================================= *)
(** * Further properties *)

(** ** Instantiation of the dataclasses (lines 15-88) *)

Lemma keys_assoc name (fs : list (string * value)) :
  In name (map fst fs) <-> is_Some (assoc name fs).
Proof.
  rewrite <- mem_In. split.
  - intros H. destruct (assoc name fs) as [v|] eqn:E; [eauto|].
    apply assoc_None_mem in E. congruence.
  - intros [v E]. apply (assoc_Some_mem _ _ _ E).
Qed.

Lemma assoc_remove_other p k (kwargs : list (string * value)) :
  k <> p -> assoc k (remove_key p kwargs) = assoc k kwargs.
Proof.
  intros Hne. induction kwargs as [|[n v] kwargs IH]; [reflexivity|].
  simpl. destruct (String.eqb n p) eqn:E; simpl.
  - apply String.eqb_eq in E. subst n.
    destruct (String.eqb p k) eqn:E'; [|reflexivity].
    apply String.eqb_eq in E'. congruence.
  - rewrite IH. reflexivity.
Qed.

(** Using a keyword takes its name out of the call once. *)
Lemma keys_remove p v (kwargs : list (string * value)) :
  assoc p kwargs = Some v ->
  map fst kwargs ≡ₚ p :: map fst (remove_key p kwargs).
Proof.
  induction kwargs as [|[n x] kwargs IH]; simpl; [discriminate|].
  destruct (String.eqb n p) eqn:E.
  - apply String.eqb_eq in E. subst n. reflexivity.
  - intros H. simpl. rewrite (IH H). apply Permutation_swap.
Qed.

Lemma keys_remove_In p v (kwargs : list (string * value)) k :
  assoc p kwargs = Some v ->
  In k (map fst kwargs) <-> k = p \/ In k (map fst (remove_key p kwargs)).
Proof.
  intros H. rewrite <- !list_elem_of_In, (keys_remove _ _ _ H), elem_of_cons.
  reflexivity.
Qed.

Lemma keys_remove_NoDup p v (kwargs : list (string * value)) :
  assoc p kwargs = Some v ->
  NoDup (map fst kwargs) <->
  ~ In p (map fst (remove_key p kwargs)) /\ NoDup (map fst (remove_key p kwargs)).
Proof.
  intros H. rewrite (keys_remove _ _ _ H), NoDup_cons, list_elem_of_In.
  reflexivity.
Qed.

Lemma In_drop {A} n (xs : list A) x : In x (drop n xs) -> In x xs.
Proof. rewrite <- !list_elem_of_In. apply subseteq_drop. Qed.

(** The fields an accepted call binds are the parameters, in order. *)
Lemma bind_args_names params args kwargs fs :
  bind_args params args kwargs = Some fs -> map fst fs = params.
Proof.
  revert args kwargs fs.
  induction params as [|p ps IH]; intros args kwargs fs; simpl.
  - destruct args, kwargs; intros [= <-]; reflexivity.
  - destruct args as [|a args'].
    + destruct (assoc p kwargs) as [v|]; [|discriminate].
      destruct (bind_args ps [] _) as [fs'|] eqn:E; [|discriminate].
      intros [= <-]. simpl. rewrite (IH _ _ _ E). reflexivity.
    + destruct (mem p (map fst kwargs)); [discriminate|].
      destruct (bind_args ps args' kwargs) as [fs'|] eqn:E; [|discriminate].
      intros [= <-]. simpl. rewrite (IH _ _ _ E). reflexivity.
Qed.

(** Exactly the calls described by [bindable] are accepted. *)
Lemma bind_args_accepts params args kwargs :
  NoDup params ->
  is_Some (bind_args params args kwargs) <-> bindable params args kwargs.
Proof.
  unfold bindable. revert args kwargs.
  induction params as [|p ps IH]; intros args kwargs Hnd.
  - simpl. split.
    + destruct args, kwargs; intros [fs H]; try discriminate.
      rewrite drop_nil. simpl. repeat split; auto.
    + intros (Hlen & _ & Hk & _). destruct args; [|simpl in Hlen; lia].
      destruct kwargs as [|[k v] kwargs]; [eauto|].
      exfalso. apply (Hk k). left. reflexivity.
  - apply NoDup_cons in Hnd. destruct Hnd as [Hp Hnd].
    rewrite list_elem_of_In in Hp.
    destruct args as [|a args']; simpl.
    + split.
      * destruct (assoc p kwargs) as [v|] eqn:Ev; [|intros [? ?]; discriminate].
        intros Hsome.
        assert (Hrec : is_Some (bind_args ps [] (remove_key p kwargs))).
        { destruct (bind_args ps [] _); [eauto|]. destruct Hsome; discriminate. }
        apply IH in Hrec; [|exact Hnd]. simpl in Hrec.
        destruct Hrec as (_ & Hnd' & Hk & Hf).
        split; [lia|]. split.
        { apply (keys_remove_NoDup _ _ _ Ev). split; [|exact Hnd'].
          intros Hin. apply Hp, Hk, Hin. }
        split.
        -- intros k Hin. apply (keys_remove_In _ _ _ _ Ev) in Hin.
           destruct Hin as [->|Hin]; [left; reflexivity | right; apply Hk, Hin].
        -- intros f [<-|Hin].
           ++ apply keys_assoc. eauto.
           ++ apply (keys_remove_In _ _ _ _ Ev). right. apply Hf, Hin.
      * intros (_ & Hndk & Hk & Hf).
        assert (Hpk : is_Some (assoc p kwargs)).
        { apply keys_assoc. apply Hf. left. reflexivity. }
        destruct Hpk as [v Ev]. rewrite Ev.
        apply (keys_remove_NoDup _ _ _ Ev) in Hndk. destruct Hndk as [Hpn Hnd'].
        assert (Hrec : is_Some (bind_args ps [] (remove_key p kwargs))).
        { apply IH; [exact Hnd|]. simpl.
          split; [lia|]. split; [exact Hnd'|]. split.
          - intros k Hin.
            assert (Hin' : In k (map fst kwargs))
              by (apply (keys_remove_In _ _ _ _ Ev); right; exact Hin).
            destruct (Hk k Hin') as [<-|H]; [contradiction | exact H].
          - intros f Hin.
            assert (Hin' : In f (map fst kwargs)) by (apply Hf; right; exact Hin).
            apply (keys_remove_In _ _ _ _ Ev) in Hin'.
            destruct Hin' as [->|H]; [contradiction | exact H]. }
        destruct Hrec as [fs ->]. simpl. eauto.
    + split.
      * destruct (mem p (map fst kwargs)) eqn:Em; [intros [? ?]; discriminate|].
        intros Hsome.
        assert (Hrec : is_Some (bind_args ps args' kwargs)).
        { destruct (bind_args ps args' kwargs); [eauto|]. destruct Hsome; discriminate. }
        apply IH in Hrec; [|exact Hnd]. destruct Hrec as (Hlen & Hndk & Hk & Hf).
        split; [lia|]. split; [exact Hndk|]. split; assumption.
      * intros (Hlen & Hndk & Hk & Hf).
        assert (Em : mem p (map fst kwargs) = false).
        { destruct (mem p (map fst kwargs)) eqn:Em; [|reflexivity].
          apply mem_In in Em. apply Hk, In_drop in Em. contradiction. }
        rewrite Em.
        assert (Hrec : is_Some (bind_args ps args' kwargs)).
        { apply IH; [exact Hnd|]. split; [lia|]. split; [exact Hndk|].
          split; assumption. }
        destruct Hrec as [fs ->]. simpl. eauto.
Qed.

Lemma dataclass_fields_NoDup c : NoDup (dataclass_fields c).
Proof.
  destruct c;
    refine (bool_decide_unpack (NoDup _) _); vm_compute; exact I.
Qed.

Lemma bind_args_positional params args kwargs fs i a f :
  NoDup params ->
  bind_args params args kwargs = Some fs ->
  args !! i = Some a -> params !! i = Some f ->
  assoc f fs = Some a.
Proof.
  revert args kwargs fs i.
  induction params as [|p ps IH]; intros args kwargs fs i Hnd Hb Ha Hf;
    [discriminate|].
  apply NoDup_cons in Hnd. destruct Hnd as [Hp Hnd].
  destruct args as [|a0 args']; [discriminate|].
  simpl in Hb. destruct (mem p (map fst kwargs)); [discriminate|].
  destruct (bind_args ps args' kwargs) as [fs'|] eqn:E; [|discriminate].
  injection Hb as <-. destruct i as [|j]; simpl in *.
  - injection Ha as ->. injection Hf as ->. rewrite String.eqb_refl. reflexivity.
  - destruct (String.eqb_spec p f) as [->|Hne].
    + exfalso. apply Hp. eapply list_elem_of_lookup_2. exact Hf.
    + apply (IH _ _ _ _ Hnd E Ha Hf).
Qed.

Lemma bind_args_keyword params args kwargs fs k v :
  bind_args params args kwargs = Some fs ->
  assoc k kwargs = Some v ->
  assoc k fs = Some v.
Proof.
  revert args kwargs fs.
  induction params as [|p ps IH]; intros args kwargs fs Hb Hk; simpl in Hb.
  - destruct args, kwargs; try discriminate.
  - destruct args as [|a args'].
    + destruct (assoc p kwargs) as [v'|] eqn:Ev; [|discriminate].
      destruct (bind_args ps [] _) as [fs'|] eqn:E; [|discriminate].
      injection Hb as <-. simpl.
      destruct (String.eqb_spec p k) as [->|Hne]; [congruence|].
      apply (IH _ _ _ E). rewrite assoc_remove_other by congruence. exact Hk.
    + destruct (mem p (map fst kwargs)) eqn:Em; [discriminate|].
      destruct (bind_args ps args' kwargs) as [fs'|] eqn:E; [|discriminate].
      injection Hb as <-. simpl.
      destruct (String.eqb_spec p k) as [->|Hne].
      * apply assoc_Some_mem in Hk. congruence.
      * apply (IH _ _ _ E Hk).
Qed.

(** X1.  A call of a class that binds every declared field exactly once
    (no more positional arguments than fields, no keyword given twice,
    keywords naming exactly the remaining fields) returns a new object of that class, at an address
    unused before, carrying exactly the declared fields; each positional
    argument reads back from the field at its position and each keyword
    from the field of its name; no existing object changes. *)
Theorem new_stores_the_bound_arguments c args kwargs w :
  bindable (dataclass_fields c) args kwargs ->
  exists l w',
    new c args kwargs w = (Return l, w') /\
    heap w !! l = None /\
    is_instance w' l c = true /\
    (forall l' o, heap w !! l' = Some o -> heap w' !! l' = Some o) /\
    (forall i a f, args !! i = Some a -> dataclass_fields c !! i = Some f ->
       getattr l f w' = (Return a, w')) /\
    (forall k v, assoc k kwargs = Some v -> getattr l k w' = (Return v, w')).
Proof.
  intros Hb.
  apply (bind_args_accepts _ _ _ (dataclass_fields_NoDup c)) in Hb.
  destruct Hb as [fs Hfs].
  exists (length (heap w)), (set_heap w (heap w ++ [Instance c fs])).
  assert (Hl : heap (set_heap w (heap w ++ [Instance c fs])) !! length (heap w)
               = Some (Instance c fs)).
  { cbn [heap set_heap]. rewrite <- (Nat.add_0_r (length (heap w))) at 1.
    rewrite lookup_new. reflexivity. }
  split; [unfold new; rewrite Hfs; reflexivity|].
  split; [apply lookup_next|].
  split.
  { unfold is_instance. rewrite Hl. cbn [cls fields].
    rewrite (bind_args_names _ _ _ _ Hfs).
    apply andb_true_iff. split; [apply class_eqb_eq | apply names_eqb_eq]; reflexivity. }
  split; [intros l' o H; apply lookup_extended; exact H|].
  split.
  - intros i a f Ha Hf. apply getattr_field. rewrite (field_lookup _ _ _ _ Hl).
    apply (bind_args_positional _ _ _ _ _ _ _ (dataclass_fields_NoDup c) Hfs Ha Hf).
  - intros k v Hk. apply getattr_field. rewrite (field_lookup _ _ _ _ Hl).
    apply (bind_args_keyword _ _ _ _ _ _ Hfs Hk).
Qed.

Lemma new_stores_the_bound_arguments_witness :
  let args := [VStr "/users"; VList [VStr "GET"]] in
  let kwargs := [("get_old_endpoint", VCallable 3); ("endpoint_func_name", VNone)] in
  bindable (dataclass_fields EndpointWasInstruction) args kwargs /\
  exists l w',
    new EndpointWasInstruction args kwargs empty_world = (Return l, w') /\
    heap empty_world !! l = None /\
    is_instance w' l EndpointWasInstruction = true /\
    (forall l' o, heap empty_world !! l' = Some o -> heap w' !! l' = Some o) /\
    (forall i a f, args !! i = Some a ->
       dataclass_fields EndpointWasInstruction !! i = Some f ->
       getattr l f w' = (Return a, w')) /\
    (forall k v, assoc k kwargs = Some v -> getattr l k w' = (Return v, w')).
Proof.
  intros args kwargs.
  assert (Hb : bindable (dataclass_fields EndpointWasInstruction) args kwargs).
  { split; [simpl; lia|].
    split; [refine (bool_decide_unpack (NoDup _) _); vm_compute; exact I|].
    split; simpl; tauto. }
  split; [exact Hb|].
  apply (new_stores_the_bound_arguments EndpointWasInstruction args kwargs empty_world Hb).
Defined.

(** X2.  Every other call of a class (too many positional arguments, a
    field left unbound, a keyword that names no field or a field already
    bound by position, a keyword given twice) raises [TypeError] and
    leaves the store as it was. *)
Theorem new_rejects_other_calls c args kwargs w :
  ~ bindable (dataclass_fields c) args kwargs ->
  new c args kwargs w = (Raise TypeError, w).
Proof.
  intros Hb. unfold new.
  destruct (bind_args (dataclass_fields c) args kwargs) as [fs|] eqn:E;
    [|reflexivity].
  exfalso. apply Hb.
  apply (bind_args_accepts _ _ _ (dataclass_fields_NoDup c)). eauto.
Qed.

(** A keyword given twice is refused, whichever value comes first. *)
Example new_repeated_keyword :
  new EndpointExistedInstruction
    [VStr "/users"; VList [VStr "GET"]]
    [("endpoint_func_name", VNone); ("endpoint_func_name", VStr "get_users")]
    empty_world
  = (Raise TypeError, empty_world).
Proof. reflexivity. Qed.

Lemma new_rejects_other_calls_witness :
  let args := [VStr "/users"; VList [VStr "GET"]; VNone] in
  ~ bindable (dataclass_fields EndpointWasInstruction) args [] /\
  new EndpointWasInstruction args [] empty_world = (Raise TypeError, empty_world).
Proof.
  intros args.
  assert (Hb : ~ bindable (dataclass_fields EndpointWasInstruction) args []).
  { intros (_ & _ & _ & H). apply (H "get_old_endpoint"). simpl. tauto. }
  split; [exact Hb|].
  apply (new_rejects_other_calls EndpointWasInstruction args [] empty_world Hb).
Defined.

(** ** What no use of the module changes *)

Lemma store_ok_lookup w :
  store_ok w = true <->
  forall l o, heap w !! l = Some o -> well_formed o = true.
Proof.
  unfold store_ok. rewrite forallb_forall. split.
  - intros H l o Hl. apply H, list_elem_of_In.
    eapply list_elem_of_lookup_2. exact Hl.
  - intros H o Hin. apply list_elem_of_In, list_elem_of_lookup in Hin.
    destruct Hin as [l Hl]. apply (H l o Hl).
Qed.

Lemma evolves_refl w : evolves w w.
Proof. repeat split; eauto. Qed.

Lemma evolves_trans w1 w2 w3 : evolves w1 w2 -> evolves w2 w3 -> evolves w1 w3.
Proof.
  intros (Ha & Hb & Hc & Hd) (Ha' & Hb' & Hc' & Hd').
  split; [auto|]. split; [|split; congruence].
  intros l o Hl. destruct (Hb l o Hl) as (o' & Hl' & Hcls).
  destruct (Hb' l o' Hl') as (o'' & Hl'' & Hcls'').
  exists o''. split; [exact Hl'' | congruence].
Qed.

Lemma evolves_alloc w o :
  well_formed o = true -> evolves w (set_heap w (heap w ++ [o])).
Proof.
  intros Ho. split; [|split; [|split; reflexivity]].
  - unfold store_ok. cbn [heap set_heap]. rewrite forallb_app. simpl.
    intros ->. rewrite Ho. reflexivity.
  - intros l x Hl. exists x. split; [apply lookup_extended; exact Hl | reflexivity].
Qed.

Lemma evolves_update w l o o' :
  heap w !! l = Some o ->
  cls o' = cls o ->
  map fst (fields o') = map fst (fields o) ->
  evolves w (set_heap w (<[l := o']> (heap w))).
Proof.
  intros Hl Hcls Hnames. split; [|split; [|split; reflexivity]].
  - rewrite !store_ok_lookup. cbn [heap set_heap]. intros H j x Hj.
    apply list_lookup_insert_Some in Hj.
    destruct Hj as [(<- & <- & _)|(_ & Hj)]; [|apply (H j x Hj)].
    unfold well_formed. rewrite Hcls, Hnames. apply (H l o Hl).
  - intros j x Hj. cbn [heap set_heap].
    destruct (decide (l = j)) as [<-|Hne].
    + exists o'. split; [|congruence].
      apply list_lookup_insert_eq. eapply lookup_lt_Some. exact Hl.
    + exists x. split; [|reflexivity].
      rewrite list_lookup_insert_ne by exact Hne. exact Hj.
Qed.

Lemma respects_ret {A} (a : A) : respects (ret a).
Proof. intros w. apply evolves_refl. Qed.

Lemma respects_raise {A} e : respects (@raise A e).
Proof. intros w. apply evolves_refl. Qed.

Lemma respects_bind {A B} (m : M A) (k : A -> M B) :
  respects m -> (forall a, respects (k a)) -> respects (bind m k).
Proof.
  intros Hm Hk w. unfold bind. specialize (Hm w).
  destruct (m w) as [[a|e|] w']; simpl in *; [|exact Hm..].
  apply (evolves_trans _ _ _ Hm). apply Hk.
Qed.

Lemma respects_getattr l name : respects (getattr l name).
Proof.
  intros w. unfold getattr.
  destruct (heap w !! l) as [o|]; [|apply evolves_refl].
  destruct (assoc name (fields o)); [apply evolves_refl|].
  destruct (class_level (cls o) name); apply evolves_refl.
Qed.

Lemma respects_new c args kwargs : respects (new c args kwargs).
Proof.
  intros w. unfold new.
  destruct (bind_args (dataclass_fields c) args kwargs) as [fs|] eqn:E;
    [|apply evolves_refl].
  apply evolves_alloc. unfold well_formed. cbn [cls fields].
  rewrite (bind_args_names _ _ _ _ E). apply names_eqb_eq. reflexivity.
Qed.

Lemma respects_setattr l name v : respects (setattr l name v).
Proof.
  intros w. unfold setattr.
  destruct (heap w !! l) as [o|] eqn:Hl; [|apply evolves_refl].
  simpl. destruct (mem name (map fst (fields o))).
  - apply (evolves_update _ _ _ _ Hl); [reflexivity|].
    apply assoc_set_names.
  - destruct (String.eqb name "__class__"); apply evolves_refl.
Qed.

Ltac respects_steps :=
  repeat first
    [ apply respects_bind; [|intros ?]
    | apply respects_getattr
    | apply respects_new
    | apply respects_ret
    | apply respects_raise ].

Lemma respects_perform op self : respects (perform op self).
Proof.
  destruct op as [| |kwargs|g]; simpl.
  - unfold didnt_exist. respects_steps.
  - unfold existed. respects_steps.
  - unfold had. destruct (unexpected_keywords had_keywords kwargs); respects_steps.
  - unfold was. respects_steps.
Qed.

Lemma respects_endpoint args kwargs : respects (endpoint args kwargs).
Proof.
  unfold endpoint.
  destruct args as [|path [|methods [|x args]]]; try apply respects_raise.
  destruct (unexpected_keywords ["func_name"] kwargs); respects_steps.
Qed.

Lemma evolves_run_actions acts w : evolves w (run_actions acts w).
Proof.
  revert w. induction acts as [|a acts IH]; intros w; [apply evolves_refl|].
  unfold run_actions in *. simpl.
  apply (evolves_trans _ (run_action a w)); [|apply IH].
  destruct a; simpl;
    [apply respects_endpoint | apply respects_perform | apply respects_setattr].
Qed.

(** X3.  Slots are fixed for good.  Whatever sequence of [endpoint]
    calls, factory operations and attribute assignments runs, on whatever
    addresses and with whatever values, every object of the store still
    carries exactly the fields its class declares: nothing ever adds,
    removes or reorders a field. *)
Theorem declared_fields_are_invariant acts w :
  store_ok w = true -> store_ok (run_actions acts w) = true.
Proof. intros H. destruct (evolves_run_actions acts w) as (Hok & _). auto. Qed.

Lemma declared_fields_are_invariant_witness :
  store_ok empty_world = true /\
  store_ok (run_actions sample_actions empty_world) = true.
Proof.
  split; [reflexivity|].
  apply (declared_fields_are_invariant sample_actions empty_world). reflexivity.
Defined.

(** X4.  Only an assignment to [__class__] can change the class of an
    object.  Across any sequence of [endpoint] calls, factory operations
    and assignments to other names, an allocated object stays allocated
    at its address with the class it was built with, and its membership
    in [AlterEndpointSubInstruction] is the one it had. *)
Theorem objects_keep_their_class acts w l o :
  forallb (fun a => negb (assigns_class a)) acts = true ->
  heap w !! l = Some o ->
  exists o',
    heap (run_actions acts w) !! l = Some o' /\
    cls o' = cls o /\
    isinstance (run_actions acts w) (VRef l) AlterEndpointSubInstruction
    = isinstance w (VRef l) AlterEndpointSubInstruction.
Proof.
  intros _ Hl. destruct (evolves_run_actions acts w) as (_ & Hcls & _).
  destruct (Hcls l o Hl) as (o' & Hl' & Ho'). exists o'.
  split; [exact Hl'|]. split; [exact Ho'|].
  unfold isinstance. rewrite Hl, Hl', Ho'. reflexivity.
Qed.

Lemma objects_keep_their_class_witness :
  let w := run_actions (take 2 sample_actions) empty_world in
  let o := Instance EndpointHadInstruction
             (identity_key (VStr "/users") (VList [VStr "GET"]) VNone
              ++ [("attributes", VRef 1)]) in
  forallb (fun a => negb (assigns_class a)) (drop 2 sample_actions) = true /\
  heap w !! 2 = Some o /\
  exists o',
    heap (run_actions (drop 2 sample_actions) w) !! 2 = Some o' /\
    cls o' = cls o /\
    isinstance (run_actions (drop 2 sample_actions) w) (VRef 2)
      AlterEndpointSubInstruction
    = isinstance w (VRef 2) AlterEndpointSubInstruction.
Proof.
  intros w o. split; [reflexivity|]. split; [reflexivity|].
  apply (objects_keep_their_class (drop 2 sample_actions) w 2 o); reflexivity.
Defined.

(** X5.  The module calls nothing and defines nothing.  Across any
    sequence of uses the trace of invoked callables and the module
    namespace are the ones the sequence started with; in particular no
    stored producer is ever invoked by the module itself. *)
Theorem module_never_calls acts w :
  trace (run_actions acts w) = trace w /\
  globals (run_actions acts w) = globals w.
Proof. destruct (evolves_run_actions acts w) as (_ & _ & Hg & Ht). auto. Qed.

(** ** The generated [__eq__] *)

Lemma py_eq_distinct k h l1 l2 o1 o2 :
  l1 <> l2 -> h !! l1 = Some o1 -> h !! l2 = Some o2 ->
  py_eq (S k) h (VRef l1) (VRef l2)
  = class_eqb (cls o1) (cls o2)
    && all2 (py_eq k h) (map snd (fields o1)) (map snd (fields o2)).
Proof.
  intros Hne H1 H2. simpl. rewrite H1, H2.
  apply Nat.eqb_neq in Hne. rewrite Hne. reflexivity.
Qed.

Lemma py_eq_other_class d h l1 l2 o1 o2 :
  h !! l1 = Some o1 -> h !! l2 = Some o2 -> cls o1 <> cls o2 ->
  py_eq d h (VRef l1) (VRef l2) = false.
Proof.
  intros H1 H2 Hc.
  assert (Hne : l1 <> l2) by (intros ->; congruence).
  destruct d as [|k].
  - simpl. apply Nat.eqb_neq in Hne. rewrite Hne. reflexivity.
  - rewrite (py_eq_distinct _ _ _ _ _ _ Hne H1 H2).
    destruct (class_eqb (cls o1) (cls o2)) eqn:E; [|reflexivity].
    apply class_eqb_eq in E. contradiction.
Qed.

(** Two operations in sequence on one factory. *)
Lemma perform_twice op1 op2 self w p m n :
  heap w !! self = Some (factory_instance p m n) ->
  accepted op1 = true -> accepted op2 = true ->
  exists l1 w1 l2 w2 x1 x2,
    perform op1 self w = (Return l1, w1) /\
    perform op2 self w1 = (Return l2, w2) /\
    l1 <> l2 /\
    heap w2 !! l1 = Some (Instance (instruction_class op1) (identity_key p m n ++ x1)) /\
    heap w2 !! l2 = Some (Instance (instruction_class op2) (identity_key p m n ++ x2)) /\
    x1 = match op1 with
         | OpHad _ => [("attributes", VRef (length (heap w)))]
         | OpWas g => [("get_old_endpoint", g)]
         | _ => []
         end /\
    x2 = match op2 with
         | OpHad _ => [("attributes", VRef (length (heap w1)))]
         | OpWas g => [("get_old_endpoint", g)]
         | _ => []
         end.
Proof.
  intros Hself Ha1 Ha2.
  set (w1 := set_heap w (heap w ++ constructed op1 p m n (length (heap w)))).
  assert (Hself1 : heap w1 !! self = Some (factory_instance p m n))
    by (apply lookup_extended; exact Hself).
  set (w2 := set_heap w1 (heap w1 ++ constructed op2 p m n (length (heap w1)))).
  pose proof (constructed_result w p m n op1) as Hl1. fold w1 in Hl1.
  pose proof (constructed_result w1 p m n op2) as Hl2. fold w2 in Hl2.
  assert (Hlen : length (heap w1) = length (heap w) + S (result_offset op1)).
  { subst w1. cbn [heap set_heap]. rewrite length_app. destruct op1; reflexivity. }
  exists (length (heap w) + result_offset op1), w1,
         (length (heap w1) + result_offset op2), w2.
  eexists _, _.
  split; [apply (perform_spec _ _ _ _ _ Hself _ Ha1)|].
  split; [apply (perform_spec _ _ _ _ _ Hself1 _ Ha2)|].
  split; [lia|].
  split; [apply lookup_extended; exact Hl1|].
  split; [exact Hl2|].
  split; reflexivity.
Qed.

(** X6.  The variants exclude one another.  Two instructions built on
    one factory by operations of different kinds never compare equal,
    however deep the comparison goes, although both carry the same
    identity key. *)
Theorem different_variants_never_equal depth op1 op2 self w :
  is_factory w self = true ->
  accepted op1 = true -> accepted op2 = true ->
  instruction_class op1 <> instruction_class op2 ->
  exists l1 w1 l2 w2,
    perform op1 self w = (Return l1, w1) /\
    perform op2 self w1 = (Return l2, w2) /\
    (forall f, In f identity_fields -> field w2 l1 f = field w2 l2 f) /\
    py_eq depth (heap w2) (VRef l1) (VRef l2) = false.
Proof.
  intros Hfac Ha1 Ha2 Hc.
  destruct (factory_shape _ _ Hfac) as (p & m & n & Hself).
  destruct (perform_twice op1 op2 _ _ _ _ _ Hself Ha1 Ha2)
    as (l1 & w1 & l2 & w2 & x1 & x2 & H1 & H2 & Hne & Hl1 & Hl2 & _ & _).
  exists l1, w1, l2, w2. split; [exact H1|]. split; [exact H2|]. split.
  - intros f Hf. rewrite (field_lookup _ _ _ _ Hl1), (field_lookup _ _ _ _ Hl2).
    cbn [fields]. simpl in Hf.
    destruct Hf as [<-|[<-|[<-|[]]]]; reflexivity.
  - apply (py_eq_other_class _ _ _ _ _ _ Hl1 Hl2). exact Hc.
Qed.

Lemma different_variants_never_equal_witness :
  is_factory users_world 0 = true /\
  accepted OpExisted = true /\ accepted OpDidntExist = true /\
  instruction_class OpExisted <> instruction_class OpDidntExist /\
  exists l1 w1 l2 w2,
    perform OpExisted 0 users_world = (Return l1, w1) /\
    perform OpDidntExist 0 w1 = (Return l2, w2) /\
    (forall f, In f identity_fields -> field w2 l1 f = field w2 l2 f) /\
    py_eq 3 (heap w2) (VRef l1) (VRef l2) = false.
Proof.
  assert (Hc : instruction_class OpExisted <> instruction_class OpDidntExist)
    by discriminate.
  split; [reflexivity|]. split; [reflexivity|]. split; [reflexivity|].
  split; [exact Hc|].
  apply (different_variants_never_equal 3 OpExisted OpDidntExist 0 users_world
           eq_refl eq_refl eq_refl Hc).
Defined.

(** X7.  Two [Was] instructions built on one factory compare equal
    exactly when their producers do; for two function objects that means
    being the same function, since functions compare by identity. *)
Theorem was_instructions_compare_producers depth g1 g2 self w :
  is_factory w self = true ->
  exists l1 w1 l2 w2,
    was self g1 w = (Return l1, w1) /\
    was self g2 w1 = (Return l2, w2) /\
    py_eq (S depth) (heap w2) (VRef l1) (VRef l2) = py_eq depth (heap w2) g1 g2 /\
    (forall f g, g1 = VCallable f -> g2 = VCallable g ->
       (py_eq (S depth) (heap w2) (VRef l1) (VRef l2) = true <-> f = g)).
Proof.
  intros Hfac.
  destruct (factory_shape _ _ Hfac) as (p & m & n & Hself).
  destruct (perform_twice (OpWas g1) (OpWas g2) _ _ _ _ _ Hself eq_refl eq_refl)
    as (l1 & w1 & l2 & w2 & x1 & x2 & H1 & H2 & Hne & Hl1 & Hl2 & -> & ->).
  exists l1, w1, l2, w2. split; [exact H1|]. split; [exact H2|].
  assert (Heq : py_eq (S depth) (heap w2) (VRef l1) (VRef l2)
                = py_eq depth (heap w2) g1 g2).
  { rewrite (py_eq_distinct _ _ _ _ _ _ Hne Hl1 Hl2).
    cbn [cls fields instruction_class class_eqb identity_key app map snd all2].
    rewrite !py_eq_refl. cbn [andb]. apply andb_true_r. }
  split; [exact Heq|].
  intros f g -> ->. rewrite Heq.
  destruct depth; simpl; rewrite ?orb_false_r; apply Nat.eqb_eq.
Qed.

Lemma was_instructions_compare_producers_witness :
  is_factory users_world 0 = true /\
  exists l1 w1 l2 w2,
    was 0 (VCallable 1) users_world = (Return l1, w1) /\
    was 0 (VCallable 2) w1 = (Return l2, w2) /\
    py_eq 2 (heap w2) (VRef l1) (VRef l2)
    = py_eq 1 (heap w2) (VCallable 1) (VCallable 2) /\
    (forall f g, VCallable 1 = VCallable f -> VCallable 2 = VCallable g ->
       (py_eq 2 (heap w2) (VRef l1) (VRef l2) = true <-> f = g)).
Proof.
  split; [reflexivity|].
  apply (was_instructions_compare_producers 1 (VCallable 1) (VCallable 2) 0 users_world).
  reflexivity.
Defined.

Lemma value_eqb_sym : forall a b, value_eqb a b = value_eqb b a.
Proof.
  fix IH 1. intros [|x|x|x|xs| |x|x|x] [|y|y|y|ys| |y|y|y]; simpl; try reflexivity.
  - destruct x, y; reflexivity.
  - apply Z.eqb_sym.
  - apply String.eqb_sym.
  - revert ys. induction xs as [|x xs IHxs]; intros [|y ys]; try reflexivity.
    rewrite (IH x y), (IHxs ys). reflexivity.
  - apply Nat.eqb_sym.
  - apply Nat.eqb_sym.
  - apply Nat.eqb_sym.
Qed.

Lemma all2_sym {A} (p q : A -> A -> bool) xs ys :
  (forall x y, p x y = q y x) -> all2 p xs ys = all2 q ys xs.
Proof.
  intros Hpq. revert ys.
  induction xs as [|x xs IH]; intros [|y ys]; simpl; try reflexivity.
  rewrite Hpq, IH. reflexivity.
Qed.

Lemma class_eqb_sym c d : class_eqb c d = class_eqb d c.
Proof. destruct c, d; reflexivity. Qed.

(** X8.  [==] is symmetric on every pair of values, instructions and
    payloads included, at every depth and in every store. *)
Theorem py_eq_sym depth h a b : py_eq depth h a b = py_eq depth h b a.
Proof.
  revert a b. induction depth as [|k IH]; intros a b; simpl;
    rewrite (value_eqb_sym a b); [reflexivity|].
  f_equal. destruct a, b; try reflexivity.
  - apply Z.eqb_sym.
  - apply Z.eqb_sym.
  - apply all2_sym. exact IH.
  - destruct (h !! l) as [o|], (h !! l0) as [o0|]; try reflexivity.
    rewrite (class_eqb_sym (cls o) (cls o0)).
    rewrite (all2_sym (py_eq k h) (py_eq k h) _ _ IH). reflexivity.
Qed.

(** ** Factories and instructions are separate objects *)

Lemma mem_identity_fields f :
  In f identity_fields ->
  forall p m n, mem f (map fst (fields (factory_instance p m n))) = true.
Proof. intros Hf p m n. apply mem_In. exact Hf. Qed.

(** X9.  An instruction is a snapshot.  After an operation has returned
    an instruction, assigning a new value to a field of the factory
    succeeds and changes the factory only: every field of the instruction
    reads as before, and so does every other object. *)
Theorem instructions_do_not_alias_the_factory op self f v w :
  is_factory w self = true ->
  accepted op = true ->
  In f identity_fields ->
  exists l w' w'',
    perform op self w = (Return l, w') /\
    setattr self f v w' = (Return tt, w'') /\
    field w'' self f = Some v /\
    (forall g, field w'' l g = field w' l g) /\
    (forall o, o <> self -> heap w'' !! o = heap w' !! o).
Proof.
  intros Hfac Hacc Hf.
  destruct (factory_shape _ _ Hfac) as (p & m & n & Hself).
  set (w' := set_heap w (heap w ++ constructed op p m n (length (heap w)))).
  assert (Hself' : heap w' !! self = Some (factory_instance p m n))
    by (apply lookup_extended; exact Hself).
  assert (Hlt : self < length (heap w)) by (eapply lookup_lt_Some; exact Hself).
  assert (Hlt' : self < length (heap w')) by (eapply lookup_lt_Some; exact Hself').
  eexists _, w', _.
  split; [apply (perform_spec _ _ _ _ _ Hself _ Hacc)|].
  split; [apply (setattr_declared _ _ _ _ _ Hself' (mem_identity_fields _ Hf p m n))|].
  split.
  { unfold field. cbn [heap set_heap].
    rewrite list_lookup_insert_eq by exact Hlt'. cbn [fields].
    apply assoc_set_same. apply (mem_identity_fields _ Hf p m n). }
  split.
  - intros g. unfold field. cbn [heap set_heap].
    rewrite list_lookup_insert_ne by lia. reflexivity.
  - intros o Ho. cbn [heap set_heap].
    apply list_lookup_insert_ne. congruence.
Qed.

Lemma instructions_do_not_alias_the_factory_witness :
  is_factory users_world 0 = true /\
  accepted (OpWas (VCallable 0)) = true /\
  In "endpoint_methods" identity_fields /\
  exists l w' w'',
    perform (OpWas (VCallable 0)) 0 users_world = (Return l, w') /\
    setattr 0 "endpoint_methods" (VList []) w' = (Return tt, w'') /\
    field w'' 0 "endpoint_methods" = Some (VList []) /\
    (forall g, field w'' l g = field w' l g) /\
    (forall o, o <> 0 -> heap w'' !! o = heap w' !! o).
Proof.
  assert (Hf : In "endpoint_methods" identity_fields) by (simpl; tauto).
  split; [reflexivity|]. split; [reflexivity|]. split; [exact Hf|].
  apply (instructions_do_not_alias_the_factory
           (OpWas (VCallable 0)) 0 "endpoint_methods" (VList []) users_world
           eq_refl eq_refl Hf).
Defined.



(** X11.  Every [had] builds a payload of its own.  Two calls on one
    factory return instructions whose [attributes] are two different
    objects; assigning to a field of the first payload succeeds and
    leaves the second payload holding what its call passed. *)
Theorem had_payloads_are_not_shared kwargs1 kwargs2 self w :
  is_factory w self = true ->
  unexpected_keywords had_keywords kwargs1 = false ->
  unexpected_keywords had_keywords kwargs2 = false ->
  exists l1 w1 l2 w2 pl1 pl2,
    had self kwargs1 w = (Return l1, w1) /\
    had self kwargs2 w1 = (Return l2, w2) /\
    field w2 l1 "attributes" = Some (VRef pl1) /\
    field w2 l2 "attributes" = Some (VRef pl2) /\
    pl1 <> pl2 /\
    forall f v, In f (dataclass_fields EndpointAttributesPayload) ->
      exists w3,
        setattr pl1 f v w2 = (Return tt, w3) /\
        field w3 pl1 f = Some v /\
        forall g, In g (dataclass_fields EndpointAttributesPayload) ->
          field w3 pl2 g = Some (default Sentinel (kwargs2 !! g)).
Proof.
  intros Hfac U1 U2.
  destruct (factory_shape _ _ Hfac) as (p & m & n & Hself).
  set (w1 := set_heap w (heap w ++ constructed (OpHad kwargs1) p m n (length (heap w)))).
  assert (Hself1 : heap w1 !! self = Some (factory_instance p m n))
    by (apply lookup_extended; exact Hself).
  set (w2 := set_heap w1 (heap w1 ++ constructed (OpHad kwargs2) p m n (length (heap w1)))).
  pose proof (constructed_result w p m n (OpHad kwargs1)) as Hl1. fold w1 in Hl1.
  pose proof (constructed_result w1 p m n (OpHad kwargs2)) as Hl2. fold w2 in Hl2.
  simpl result_offset in Hl1, Hl2. rewrite Nat.add_1_r in Hl1, Hl2.
  assert (Hlen : length (heap w1) = length (heap w) + 2).
  { subst w1. cbn [heap set_heap]. rewrite length_app. reflexivity. }
  assert (Hp1 : heap w2 !! length (heap w) = Some (payload_of kwargs1)).
  { subst w2. cbn [heap set_heap]. apply lookup_extended.
    subst w1. cbn [heap set_heap].
    rewrite <- (Nat.add_0_r (length (heap w))) at 1.
    rewrite lookup_new. reflexivity. }
  assert (Hp2 : heap w2 !! length (heap w1) = Some (payload_of kwargs2)).
  { subst w2. cbn [heap set_heap].
    rewrite <- (Nat.add_0_r (length (heap w1))) at 1.
    rewrite lookup_new. reflexivity. }
  exists (S (length (heap w))), w1, (S (length (heap w1))), w2,
         (length (heap w)), (length (heap w1)).
  split; [apply (had_spec _ _ _ _ _ Hself _ U1)|].
  split; [apply (had_spec _ _ _ _ _ Hself1 _ U2)|].
  split.
  { assert (H : heap w2 !! S (length (heap w)) = heap w1 !! S (length (heap w)))
      by (rewrite Hl1; apply lookup_extended; exact Hl1).
    unfold field. rewrite H, Hl1. reflexivity. }
  split; [rewrite (field_lookup _ _ _ _ Hl2); reflexivity|].
  split; [lia|].
  intros f v Hf.
  assert (Hm : mem f (map fst (fields (payload_of kwargs1))) = true)
    by (apply mem_In; exact Hf).
  eexists. split; [apply (setattr_declared _ _ _ _ _ Hp1 Hm)|].
  split.
  - unfold field. cbn [heap set_heap].
    rewrite list_lookup_insert_eq by (eapply lookup_lt_Some; exact Hp1).
    cbn [fields]. apply assoc_set_same. exact Hm.
  - intros g Hg. unfold field. cbn [heap set_heap].
    rewrite list_lookup_insert_ne by lia. rewrite Hp2.
    apply payload_field. exact Hg.
Qed.

Lemma had_payloads_are_not_shared_witness :
  let kwargs1 : gmap string value := <["status_code" := VInt 200]> ∅ in
  let kwargs2 : gmap string value := <["deprecated" := VBool true]> ∅ in
  is_factory users_world 0 = true /\
  unexpected_keywords had_keywords kwargs1 = false /\
  unexpected_keywords had_keywords kwargs2 = false /\
  exists l1 w1 l2 w2 pl1 pl2,
    had 0 kwargs1 users_world = (Return l1, w1) /\
    had 0 kwargs2 w1 = (Return l2, w2) /\
    field w2 l1 "attributes" = Some (VRef pl1) /\
    field w2 l2 "attributes" = Some (VRef pl2) /\
    pl1 <> pl2 /\
    forall f v, In f (dataclass_fields EndpointAttributesPayload) ->
      exists w3,
        setattr pl1 f v w2 = (Return tt, w3) /\
        field w3 pl1 f = Some v /\
        forall g, In g (dataclass_fields EndpointAttributesPayload) ->
          field w3 pl2 g = Some (default Sentinel (kwargs2 !! g)).
Proof.
  intros kwargs1 kwargs2.
  split; [reflexivity|]. split; [reflexivity|]. split; [reflexivity|].
  apply (had_payloads_are_not_shared kwargs1 kwargs2 0 users_world); reflexivity.
Defined.

(** ** Which calls the signatures accept *)





(** ** Operations on an object that is no factory *)

Lemma read_key_missing {B} (k : value -> value -> value -> M B) self f w :
  In f identity_fields ->
  field w self f = None ->
  (let* endpoint_path := getattr self "endpoint_path" in
   let* endpoint_methods := getattr self "endpoint_methods" in
   let* endpoint_func_name := getattr self "endpoint_func_name" in
   k endpoint_path endpoint_methods endpoint_func_name) w
  = (Raise AttributeError, w).
Proof.
  intros Hf Hnone.
  destruct (field w self "endpoint_path") as [p|] eqn:Ep;
    [|apply bind_Raise, getattr_no_field; [exact Ep | reflexivity..]].
  rewrite (bind_Return _ _ _ _ _ (getattr_field _ _ _ _ Ep)).
  destruct (field w self "endpoint_methods") as [m|] eqn:Em;
    [|apply bind_Raise, getattr_no_field; [exact Em | reflexivity..]].
  rewrite (bind_Return _ _ _ _ _ (getattr_field _ _ _ _ Em)).
  destruct (field w self "endpoint_func_name") as [n|] eqn:En;
    [|apply bind_Raise, getattr_no_field; [exact En | reflexivity..]].
  simpl in Hf. destruct Hf as [<-|[<-|[<-|[]]]]; congruence.
Qed.

(** X14.  The operations need the identity key.  Applied to an object
    that lacks one of [endpoint_path], [endpoint_methods],
    [endpoint_func_name] (a payload, or an address that holds nothing),
    every operation whose keywords are accepted raises [AttributeError]
    and allocates nothing. *)
Theorem operations_need_the_identity_key op self f w :
  accepted op = true ->
  In f identity_fields ->
  field w self f = None ->
  perform op self w = (Raise AttributeError, w).
Proof.
  intros Hacc Hf Hnone. destruct op as [| |kwargs|g]; simpl.
  - apply (read_key_missing _ self f w Hf Hnone).
  - apply (read_key_missing _ self f w Hf Hnone).
  - simpl in Hacc. apply negb_true_iff in Hacc. unfold had. rewrite Hacc.
    apply (read_key_missing _ self f w Hf Hnone).
  - apply (read_key_missing _ self f w Hf Hnone).
Qed.

Lemma operations_need_the_identity_key_witness :
  let w := snd (had 0 ∅ users_world) in
  accepted OpExisted = true /\
  In "endpoint_methods" identity_fields /\
  is_instance w 1 EndpointAttributesPayload = true /\
  field w 1 "endpoint_methods" = None /\
  perform OpExisted 1 w = (Raise AttributeError, w).
Proof.
  intros w.
  assert (Hf : In "endpoint_methods" identity_fields) by (simpl; tauto).
  split; [reflexivity|]. split; [exact Hf|]. split; [reflexivity|].
  split; [reflexivity|].
  apply (operations_need_the_identity_key OpExisted 1 "endpoint_methods" w
           eq_refl Hf eq_refl).
Defined.

(** ** Equality of [Had] instructions *)

Lemma all2_table {A} (p : value -> value -> bool) (a1 a2 : A -> value)
    (n1 n2 : A -> string) names :
  all2 p (map snd (map (fun f => (n1 f, a1 f)) names))
         (map snd (map (fun f => (n2 f, a2 f)) names))
  = forallb (fun f => p (a1 f) (a2 f)) names.
Proof.
  induction names as [|f names IH]; simpl; [reflexivity|].
  rewrite IH. reflexivity.
Qed.

(** X15.  Two [Had] instructions built on one factory compare equal
    exactly when, field by field, what the two calls passed (or the
    Sentinel marker, where a call passed nothing) compares equal. *)
Theorem had_instructions_compare_payloads depth kwargs1 kwargs2 self w :
  is_factory w self = true ->
  unexpected_keywords had_keywords kwargs1 = false ->
  unexpected_keywords had_keywords kwargs2 = false ->
  exists l1 w1 l2 w2,
    had self kwargs1 w = (Return l1, w1) /\
    had self kwargs2 w1 = (Return l2, w2) /\
    py_eq (S (S depth)) (heap w2) (VRef l1) (VRef l2)
    = forallb (fun f => py_eq depth (heap w2)
                          (default Sentinel (kwargs1 !! f))
                          (default Sentinel (kwargs2 !! f)))
        (dataclass_fields EndpointAttributesPayload).
Proof.
  intros Hfac U1 U2.
  destruct (factory_shape _ _ Hfac) as (p & m & n & Hself).
  set (w1 := set_heap w (heap w ++ constructed (OpHad kwargs1) p m n (length (heap w)))).
  assert (Hself1 : heap w1 !! self = Some (factory_instance p m n))
    by (apply lookup_extended; exact Hself).
  set (w2 := set_heap w1 (heap w1 ++ constructed (OpHad kwargs2) p m n (length (heap w1)))).
  pose proof (constructed_result w p m n (OpHad kwargs1)) as Hl1. fold w1 in Hl1.
  pose proof (constructed_result w1 p m n (OpHad kwargs2)) as Hl2. fold w2 in Hl2.
  simpl result_offset in Hl1, Hl2. rewrite Nat.add_1_r in Hl1, Hl2.
  assert (Hlen : length (heap w1) = length (heap w) + 2).
  { subst w1. cbn [heap set_heap]. rewrite length_app. reflexivity. }
  assert (Hl1' : heap w2 !! S (length (heap w))
                 = Some (Instance EndpointHadInstruction
                           (identity_key p m n ++ [("attributes", VRef (length (heap w)))])))
    by (apply lookup_extended; exact Hl1).
  assert (Hp1 : heap w2 !! length (heap w) = Some (payload_of kwargs1)).
  { subst w2. cbn [heap set_heap]. apply lookup_extended.
    subst w1. cbn [heap set_heap].
    rewrite <- (Nat.add_0_r (length (heap w))) at 1.
    rewrite lookup_new. reflexivity. }
  assert (Hp2 : heap w2 !! length (heap w1) = Some (payload_of kwargs2)).
  { subst w2. cbn [heap set_heap].
    rewrite <- (Nat.add_0_r (length (heap w1))) at 1.
    rewrite lookup_new. reflexivity. }
  exists (S (length (heap w))), w1, (S (length (heap w1))), w2.
  split; [apply (had_spec _ _ _ _ _ Hself _ U1)|].
  split; [apply (had_spec _ _ _ _ _ Hself1 _ U2)|].
  assert (Hne : S (length (heap w)) <> S (length (heap w1))) by lia.
  assert (Hnp : length (heap w) <> length (heap w1)) by lia.
  rewrite (py_eq_distinct _ _ _ _ _ _ Hne Hl1' Hl2).
  cbn [cls fields instruction_class class_eqb identity_key app map snd all2].
  rewrite !py_eq_refl. cbn [andb]. rewrite andb_true_r.
  rewrite (py_eq_distinct _ _ _ _ _ _ Hnp Hp1 Hp2).
  unfold payload_of. cbn [cls fields class_eqb andb].
  apply all2_table.
Qed.

Lemma had_instructions_compare_payloads_witness :
  let kwargs1 : gmap string value := <["status_code" := VInt 1]> ∅ in
  let kwargs2 : gmap string value := <["status_code" := VBool true]> ∅ in
  is_factory users_world 0 = true /\
  unexpected_keywords had_keywords kwargs1 = false /\
  unexpected_keywords had_keywords kwargs2 = false /\
  exists l1 w1 l2 w2,
    had 0 kwargs1 users_world = (Return l1, w1) /\
    had 0 kwargs2 w1 = (Return l2, w2) /\
    py_eq 3 (heap w2) (VRef l1) (VRef l2)
    = forallb (fun f => py_eq 1 (heap w2)
                          (default Sentinel (kwargs1 !! f))
                          (default Sentinel (kwargs2 !! f)))
        (dataclass_fields EndpointAttributesPayload).
Proof.
  intros kwargs1 kwargs2.
  split; [reflexivity|]. split; [reflexivity|]. split; [reflexivity|].
  apply (had_instructions_compare_payloads 1 kwargs1 kwargs2 0 users_world);
    reflexivity.
Defined.
